(** * Border detection, cropping and icon padding

    A shallow embedding of the three raster scripts of the repository,
    [remove_border_advanced.py], [remove_white_border.py] and
    [add_icon_padding.py], and the properties their specification states.

    A decoded image is a record holding its mode, its size and its rows of
    pixels.  An exception of the Python code ([IndexError] of a pixel access,
    [ValueError] of a tuple unpacking or of [Image.new]) is [None]. *)

From Stdlib Require Import String Ascii ZArith List Bool Lia Arith Floats.
Import ListNotations.

(** ** Exceptions as [option] *)

Definition bind {A B : Type} (m : option A) (k : A -> option B) : option B :=
  match m with
  | Some a => k a
  | None => None
  end.

Notation "x <- m ;; k" := (bind m (fun x => k))
  (at level 61, m at next level, right associativity).

(** ** Images *)

Inductive image_mode : Type := ModeRGB | ModeRGBA.

(** A pixel as the pixel access object returns it: a 3-tuple or a 4-tuple of
    integers. *)
Inductive pixel : Type :=
| RGB (r g b : Z)
| RGBA (r g b a : Z).

Record image : Type := mkImage {
  mode : image_mode;
  width : nat;
  height : nat;
  data : list (list pixel)
}.

Definition mode_eqb (m1 m2 : image_mode) : bool :=
  match m1, m2 with
  | ModeRGB, ModeRGB | ModeRGBA, ModeRGBA => true
  | _, _ => false
  end.

Definition has_mode (m : image_mode) (p : pixel) : Prop :=
  match m, p with
  | ModeRGB, RGB _ _ _ | ModeRGBA, RGBA _ _ _ _ => True
  | _, _ => False
  end.

(** The representation invariant of a decoded image. *)
Definition wf (img : image) : Prop :=
  length (data img) = height img /\
  Forall (fun row => length row = width img) (data img) /\
  Forall (Forall (has_mode (mode img))) (data img).

(** [pixels[x, y]]: out of range is an [IndexError]. *)
Definition getpixel (img : image) (x y : nat) : option pixel :=
  row <- nth_error (data img) y ;; nth_error row x.

(** [img.convert('RGBA')] gives an opaque alpha to an RGB pixel;
    [img.convert('RGB')] drops the alpha channel. *)
Definition to_RGBA (p : pixel) : pixel :=
  match p with
  | RGB r g b => RGBA r g b 255
  | RGBA _ _ _ _ => p
  end.

Definition to_RGB (p : pixel) : pixel :=
  match p with
  | RGB _ _ _ => p
  | RGBA r g b _ => RGB r g b
  end.

Definition convert (m : image_mode) (img : image) : image :=
  mkImage m (width img) (height img)
    (map (map (match m with ModeRGBA => to_RGBA | ModeRGB => to_RGB end))
       (data img)).

(** [if img.mode != m: img = img.convert(m)]. *)
Definition ensure_mode (m : image_mode) (img : image) : image :=
  if mode_eqb (mode img) m then img else convert m img.

(** [img.crop((l, u, r, lo))] for a box inside the image, the only way the
    scripts call it. *)
Definition crop (img : image) (l u r lo : Z) : image :=
  let w := Z.to_nat (r - l) in
  let h := Z.to_nat (lo - u) in
  mkImage (mode img) w h
    (map (fun row => firstn w (skipn (Z.to_nat l) row))
       (firstn h (skipn (Z.to_nat u) (data img)))).

(** ** The boundary scans

    The four loop nests of both scripts have one shape: an inner loop that
    looks for a content pixel along a line and breaks at the first one, and
    an outer loop that keeps the first line where the inner loop found one. *)

Record bbox : Type := mkBox { top : Z; bottom : Z; left : Z; right : Z }.

Section Scan.
(** The test of the inner loop; it may raise. *)
Variable content : pixel -> option bool.
Variable img : image.

Fixpoint line_has_content (px : nat -> option pixel) (idxs : list nat)
  : option bool :=
  match idxs with
  | [] => Some false
  | i :: rest =>
      p <- px i ;;
      c <- content p ;;
      if c then Some true else line_has_content px rest
  end.

Fixpoint first_content_line (line : nat -> option bool) (idxs : list nat)
    (default : Z) : option Z :=
  match idxs with
  | [] => Some default
  | i :: rest =>
      found <- line i ;;
      if found then Some (Z.of_nat i)
      else first_content_line line rest default
  end.

Definition row_has_content (y : nat) : option bool :=
  line_has_content (fun x => getpixel img x y) (seq 0 (width img)).

Definition column_has_content (x : nat) : option bool :=
  line_has_content (fun y => getpixel img x y) (seq 0 (height img)).

Definition find_bounds : option bbox :=
  t <- first_content_line row_has_content (seq 0 (height img)) 0%Z ;;
  b <- first_content_line row_has_content (rev (seq 0 (height img)))
         (Z.of_nat (height img) - 1) ;;
  l <- first_content_line column_has_content (seq 0 (width img)) 0%Z ;;
  r <- first_content_line column_has_content (rev (seq 0 (width img)))
         (Z.of_nat (width img) - 1) ;;
  Some (mkBox t b l r).
End Scan.

Definition crop_to_box (img : image) (box : bbox) : image :=
  crop img (left box) (top box) (right box + 1)%Z (bottom box + 1)%Z.

(** ** [remove_border_advanced.py] *)

Definition get_background_color (img : image) : option pixel :=
  c0 <- getpixel img 0 0 ;;
  c1 <- getpixel img (width img - 1) 0 ;;
  c2 <- getpixel img 0 (height img - 1) ;;
  c3 <- getpixel img (width img - 1) (height img - 1) ;;
  let corners := [c0; c1; c2; c3] in
  nth_error corners 0.

Definition within (tolerance v bg_v : Z) : bool :=
  (Z.abs (v - bg_v) <=? tolerance)%Z.

Definition is_background (bg_color : pixel) (tolerance : Z) (p : pixel)
  : option bool :=
  match p with
  | RGBA r g b a =>
      match bg_color with
      | RGBA bg_r bg_g bg_b bg_a =>
          if (a <? 10)%Z then Some true
          else Some (within tolerance r bg_r && within tolerance g bg_g
                     && within tolerance b bg_b)
      | RGB _ _ _ => None
      end
  | RGB r g b =>
      match bg_color with
      | RGBA bg_r bg_g bg_b _ | RGB bg_r bg_g bg_b =>
          Some (within tolerance r bg_r && within tolerance g bg_g
                && within tolerance b bg_b)
      end
  end.

Definition not_background (bg_color : pixel) (tolerance : Z) (p : pixel)
  : option bool :=
  option_map negb (is_background bg_color tolerance p).

(** The function returns what it prints and what it hands to
    [cropped.save]: the bounds and the cropped image.  Writing the file, and
    the errors of the writer itself, are outside the model. *)
Definition remove_border (input : image) (tolerance : Z)
  : option (bbox * image) :=
  let img := ensure_mode ModeRGBA input in
  bg_color <- get_background_color img ;;
  box <- find_bounds (not_background bg_color tolerance) img ;;
  Some (box, crop_to_box img box).

(** ** [remove_white_border.py] *)

Definition non_white (threshold : Z) (p : pixel) : option bool :=
  match p with
  | RGB r g b => Some ((r <? threshold)%Z || (g <? threshold)%Z || (b <? threshold)%Z)
  | RGBA _ _ _ _ => None
  end.

Definition remove_white_border (input : image) (threshold : Z)
  : option (bbox * image) :=
  let img := ensure_mode ModeRGB input in
  box <- find_bounds (non_white threshold) img ;;
  Some (box, crop_to_box img box).

(** ** [add_icon_padding.py] *)

(** Python's [float(n)] of an integer: the nearest double, ties to even. *)
Definition float_of_int (z : Z) : float :=
  SF2Prim (binary_normalize prec emax z 0 false).

(** Python's [int(f)] of a float: truncation toward zero; infinities and NaN
    raise. *)
Definition int_of_float (f : float) : option Z :=
  match Prim2SF f with
  | S754_zero _ => Some 0%Z
  | S754_finite neg m e =>
      let magnitude :=
        if (0 <=? e)%Z then Z.shiftl (Zpos m) e else Z.shiftr (Zpos m) (- e) in
      Some (if neg then (- magnitude)%Z else magnitude)
  | S754_infinity _ | S754_nan => None
  end.

(** [int(original_size * (padding_percent / 100))]: a true division and a
    product of doubles, then a truncation.  The percentage is an integer, as
    the 15 of the script's own call. *)
Definition padding_of (original_size padding_percent : Z) : option Z :=
  int_of_float
    (PrimFloat.mul (float_of_int original_size)
       (PrimFloat.div (float_of_int padding_percent) (float_of_int 100))).

(** [Image.new(mode, (w, h), fill)]: a negative size is a [ValueError]. *)
Definition Image_new (m : image_mode) (w h : Z) (fill : pixel) : option image :=
  if ((w <? 0) || (h <? 0))%Z then None
  else Some (mkImage m (Z.to_nat w) (Z.to_nat h)
               (repeat (repeat fill (Z.to_nat w)) (Z.to_nat h))).

(** The imaging library's integer blend of two 8-bit channels under an 8-bit
    mask: [DIV255] is its rounded division by 255. *)
Definition DIV255 (a : Z) : Z :=
  let tmp := (a + 128)%Z in
  Z.shiftr (Z.shiftr tmp 8 + tmp) 8.

Definition BLEND (mask in1 in2 : Z) : Z :=
  DIV255 (in1 * (255 - mask) + in2 * mask).

Definition channels (p : pixel) : Z * Z * Z * Z :=
  match p with
  | RGB r g b => (r, g, b, 255%Z)
  | RGBA r g b a => (r, g, b, a)
  end.

(** One pixel of [paste] with an RGBA mask: every band of the destination,
    alpha included, is blended with the source under the mask's alpha. *)
Definition paste_pixel (d s m : pixel) : pixel :=
  let '(dr, dg, db, da) := channels d in
  let '(sr, sg, sb, sa) := channels s in
  let '(_, _, _, k) := channels m in
  RGBA (BLEND k dr sr) (BLEND k dg sg) (BLEND k db sb) (BLEND k da sa).

Definition getpixelZ (img : image) (x y : Z) : option pixel :=
  if ((x <? 0) || (y <? 0))%Z then None
  else getpixel img (Z.to_nat x) (Z.to_nat y).

Fixpoint imap_from {A B : Type} (f : nat -> A -> B) (i : nat) (l : list A)
  : list B :=
  match l with
  | [] => []
  | a :: rest => f i a :: imap_from f (S i) rest
  end.

(** [dst.paste(src, (dx, dy), mask)] on RGBA images: the source region that
    falls inside the destination is blended in; a mask of another size or a
    mask without alpha is a [ValueError]. *)
Definition paste (dst src : image) (dx dy : Z) (mask : image) : option image :=
  if mode_eqb (mode dst) ModeRGBA && mode_eqb (mode src) ModeRGBA
     && mode_eqb (mode mask) ModeRGBA
     && (width src =? width mask) && (height src =? height mask)
  then
    Some (mkImage (mode dst) (width dst) (height dst)
            (imap_from (fun y row =>
               imap_from (fun x d =>
                 let sx := (Z.of_nat x - dx)%Z in
                 let sy := (Z.of_nat y - dy)%Z in
                 match getpixelZ src sx sy, getpixelZ mask sx sy with
                 | Some s, Some m => paste_pixel d s m
                 | _, _ => d
                 end) 0 row) 0 (data dst)))
  else None.

(** The function returns the image it hands to [new_img.save]; writing the
    file is outside the model, as for the two crops. *)
Definition add_padding_to_icon (input : image) (padding_percent : Z)
  : option image :=
  let img := ensure_mode ModeRGBA input in
  let original_size := Z.of_nat (width img) in
  padding <- padding_of original_size padding_percent ;;
  let new_size := (original_size + 2 * padding)%Z in
  new_img <- Image_new ModeRGBA new_size new_size (RGBA 0 0 0 0) ;;
  paste new_img img padding padding img.

(** ** Command lines

    [argv] is [sys.argv]; [None] is the usage message and [sys.exit(1)]. *)

(** [s.replace(old, new)] for a non-empty [old]: the occurrences are replaced
    from the left and do not overlap.  [skip] counts the characters of a
    replaced occurrence still to be passed over. *)
Fixpoint replace_from (old new : string) (skip : nat) (s : string) : string :=
  match s with
  | EmptyString => EmptyString
  | String c rest =>
      match skip with
      | S k => replace_from old new k rest
      | O =>
          if String.prefix old s
          then (new ++ replace_from old new (String.length old - 1) rest)%string
          else String c (replace_from old new 0 rest)
      end
  end.

Definition str_replace (s old new : string) : string :=
  replace_from old new 0 s.

Definition remove_border_output_path (argv : list string) : option string :=
  if length argv <? 2 then None
  else
    input_path <- nth_error argv 1 ;;
    Some (if 2 <? length argv then nth 2 argv input_path else input_path).

Definition remove_white_border_output_path (argv : list string)
  : option string :=
  if length argv <? 2 then None
  else
    input_path <- nth_error argv 1 ;;
    Some (if 2 <? length argv then nth 2 argv input_path
          else str_replace input_path ".png" "_no_border.png").

(** ** Small images to run the scripts on *)

Definition white : pixel := RGBA 255 255 255 255.
Definition red : pixel := RGBA 255 0 0 255.
Definition blue : pixel := RGBA 0 0 255 255.

Definition strip3 : image := mkImage ModeRGBA 3 1 [[white; red; blue]].

Definition solid (m : image_mode) (w h : nat) (p : pixel) : image :=
  mkImage m w h (repeat (repeat p w) h).

(** Same top-left pixel as [strip3], other corners differ. *)
Definition strip3_other_corners : image :=
  mkImage ModeRGBA 3 2 [[white; red; blue]; [red; blue; red]].

(** Content on two diagonal pixels: the crop's top-left pixel is white. *)
Definition diagonal3 : image :=
  mkImage ModeRGBA 3 3
    [[white; white; white]; [white; white; red]; [white; red; white]].

(** Two images that differ in one transparent pixel only. *)
Definition clear_green : image :=
  mkImage ModeRGBA 2 2 [[white; RGBA 0 255 0 0]; [red; white]].

Definition clear_grey : image :=
  mkImage ModeRGBA 2 2 [[white; RGBA 9 9 9 5]; [red; white]].

(** Icons to pad: a half-transparent pixel, an opaque square, and an icon
    with content in its top-left pixel only. *)
Definition half_clear1 : image := solid ModeRGBA 1 1 (RGBA 200 100 50 128).
Definition orange2 : image := solid ModeRGB 2 2 (RGB 200 100 50).
Definition corner_dot2 : image :=
  mkImage ModeRGBA 2 2 [[red; RGBA 0 0 0 0]; [RGBA 0 0 0 0; RGBA 0 0 0 0]].


(** ** Specification-side definitions *)

(** A pixel that the inner loop's test classifies as content. *)
Definition foreground (content : pixel -> option bool) (img : image)
    (x y : nat) : Prop :=
  exists p, getpixel img x y = Some p /\ content p = Some true.

(** A box given by row and column indices. *)
Definition nat_box (t b l r : nat) : bbox :=
  mkBox (Z.of_nat t) (Z.of_nat b) (Z.of_nat l) (Z.of_nat r).

(** The box that keeps the whole image. *)
Definition full_box (img : image) : bbox :=
  mkBox 0 (Z.of_nat (height img) - 1) 0 (Z.of_nat (width img) - 1).

Definition inside (box : bbox) (x y : nat) : Prop :=
  (left box <= Z.of_nat x <= right box)%Z /\
  (top box <= Z.of_nat y <= bottom box)%Z.

(** What the specification asks of the bounds [box] and of the crop [out] of
    an image [img] whose content pixels are those of [content]: the crop is
    the subimage of the box; without content the box is the whole image;
    the box holds every content pixel and is inside any box that does; a
    single content pixel gives a box of one pixel. *)
Definition minimal_crop (content : pixel -> option bool) (img : image)
    (box : bbox) (out : image) : Prop :=
  let fg := foreground content img in
  (width out = Z.to_nat (right box - left box + 1) /\
   height out = Z.to_nat (bottom box - top box + 1) /\
   forall i j, i < width out -> j < height out ->
     getpixel out i j
     = getpixel img (Z.to_nat (left box) + i) (Z.to_nat (top box) + j)) /\
  ((forall x y, ~ fg x y) -> box = full_box img /\ out = img) /\
  (forall x y, fg x y -> inside box x y) /\
  ((exists x y, fg x y) ->
   forall box', (forall x y, fg x y -> inside box' x y) ->
     (left box' <= left box /\ right box <= right box' /\
      top box' <= top box /\ bottom box <= bottom box')%Z) /\
  (forall x0 y0, fg x0 y0 ->
     (forall x y, fg x y -> x = x0 /\ y = y0) ->
     box = mkBox (Z.of_nat y0) (Z.of_nat y0) (Z.of_nat x0) (Z.of_nat x0) /\
     width out = 1 /\ height out = 1).

(** [old] occurs in [s]. *)
Fixpoint occursb (old s : string) : bool :=
  match s with
  | EmptyString => String.prefix old s
  | String _ rest => String.prefix old s || occursb old rest
  end.

(** A test over the integers [z], [z + 1], ..., [z + n - 1]. *)
Fixpoint all_from (f : Z -> bool) (z : Z) (n : nat) : bool :=
  match n with
  | O => true
  | S k => f z && all_from f (Z.succ z) k
  end.

(** The padding of the code is the floor of [s * pct / 100]. *)
Definition padding_is_floor (pct s : Z) : bool :=
  match padding_of s pct with
  | Some pad => (pad =? s * pct / 100)%Z
  | None => false
  end.

(** Valid bounds of a non-empty image. *)
Definition valid_box (img : image) (box : bbox) : Prop :=
  (0 <= top box <= bottom box /\ bottom box < Z.of_nat (height img))%Z /\
  (0 <= left box <= right box /\ right box < Z.of_nat (width img))%Z.

(** The scans with a test that does not raise, as plain list functions. *)
Section PureScan.
Variable c : pixel -> bool.
Variable img : image.

Definition fgb (x y : nat) : bool :=
  match getpixel img x y with
  | Some p => c p
  | None => false
  end.

Definition row_fg (y : nat) : bool :=
  existsb (fun x => fgb x y) (seq 0 (width img)).

Definition col_fg (x : nat) : bool :=
  existsb (fun y => fgb x y) (seq 0 (height img)).

Definition first_or (lb : nat -> bool) (idxs : list nat) (default : Z) : Z :=
  match find lb idxs with
  | Some i => Z.of_nat i
  | None => default
  end.

Definition bounds : bbox :=
  mkBox (first_or row_fg (seq 0 (height img)) 0)
        (first_or row_fg (rev (seq 0 (height img))) (Z.of_nat (height img) - 1))
        (first_or col_fg (seq 0 (width img)) 0)
        (first_or col_fg (rev (seq 0 (width img))) (Z.of_nat (width img) - 1)).
End PureScan.

(** The tests of the two scripts on the pixels they meet after conversion. *)
Definition rgb_of (p : pixel) : Z * Z * Z :=
  match p with
  | RGB r g b | RGBA r g b _ => (r, g, b)
  end.

Definition alpha_of (p : pixel) : Z :=
  match p with
  | RGB _ _ _ => 255%Z
  | RGBA _ _ _ a => a
  end.

Definition content_tol (bg_color : pixel) (tolerance : Z) (p : pixel) : bool :=
  let '(bg_r, bg_g, bg_b) := rgb_of bg_color in
  let '(r, g, b) := rgb_of p in
  negb ((alpha_of p <? 10)%Z
        || (within tolerance r bg_r && within tolerance g bg_g
            && within tolerance b bg_b)).

Definition content_thr (threshold : Z) (p : pixel) : bool :=
  let '(r, g, b) := rgb_of p in
  (r <? threshold)%Z || (g <? threshold)%Z || (b <? threshold)%Z.

(** ** Further specification-side definitions *)

(** All the content of [img] lies in the rows [t..b] and the columns
    [l..r], and each of the four edges of that rectangle holds content. *)
Definition framed (content : pixel -> option bool) (img : image)
    (t b l r : nat) : Prop :=
  let fg := foreground content img in
  (forall x y, fg x y -> l <= x <= r /\ t <= y <= b) /\
  (exists x, fg x t) /\ (exists x, fg x b) /\
  (exists y, fg l y) /\ (exists y, fg r y).

(** [inner] lies inside [outer]. *)
Definition box_inside (inner outer : bbox) : Prop :=
  (left outer <= left inner /\ right inner <= right outer /\
   top outer <= top inner /\ bottom inner <= bottom outer)%Z.

(** The pixel conversion of [img.convert(m)]. *)
Definition convert_pixel (m : image_mode) : pixel -> pixel :=
  match m with
  | ModeRGBA => to_RGBA
  | ModeRGB => to_RGB
  end.

(** Pixels of 8-bit channels. *)
Definition valid_pixel (p : pixel) : Prop :=
  let '(r, g, b, a) := channels p in
  (0 <= r <= 255 /\ 0 <= g <= 255 /\ 0 <= b <= 255 /\ 0 <= a <= 255)%Z.

Definition valid_image (img : image) : Prop :=
  forall x y p, getpixel img x y = Some p -> valid_pixel p.

(** No pixel of the image is see-through to the scan of tolerance mode. *)
Definition alpha_at_least (n : Z) (img : image) : Prop :=
  forall x y p, getpixel img x y = Some p -> (n <= alpha_of p)%Z.

(** Each of the four outer edges of the image holds a pixel with [P]. *)
Definition edges_hold (P : pixel -> Prop) (img : image) : Prop :=
  let has x y := exists p, getpixel img x y = Some p /\ P p in
  (exists x, has x 0) /\ (exists x, has x (height img - 1)) /\
  (exists y, has 0 y) /\ (exists y, has (width img - 1) y).

Definition non_black (p : pixel) : Prop := rgb_of p <> (0, 0, 0)%Z.

(** A white frame around a 2 by 2 centre. *)
Definition framed4 : image :=
  mkImage ModeRGB 4 4
    [[RGB 255 255 255; RGB 255 255 255; RGB 255 255 255; RGB 255 255 255];
     [RGB 255 255 255; RGB 10 20 30; RGB 40 50 60; RGB 255 255 255];
     [RGB 255 255 255; RGB 70 80 90; RGB 15 25 35; RGB 255 255 255];
     [RGB 255 255 255; RGB 255 255 255; RGB 255 255 255; RGB 255 255 255]].

(** One colour channel of [p] is further from the reference's than the
    tolerance. *)
Definition colour_beyond (bg_color : pixel) (tolerance : Z) (p : pixel)
  : Prop :=
  let '(bg_r, bg_g, bg_b) := rgb_of bg_color in
  let '(r, g, b) := rgb_of p in
  (tolerance < Z.abs (r - bg_r) \/ tolerance < Z.abs (g - bg_g) \/
   tolerance < Z.abs (b - bg_b))%Z.

(** A see-through green pixel between the white reference and the red
    content. *)
Definition clear_between3 : image :=
  mkImage ModeRGBA 3 1 [[white; RGBA 0 255 0 0; red]].

(** A tall icon: two columns, four rows. *)
Definition tall24 : image := solid ModeRGBA 2 4 red.

(** ** Pixel access *)

Lemma getpixel_range (img : image) (x y : nat) (p : pixel) :
  wf img -> getpixel img x y = Some p -> x < width img /\ y < height img.
Proof.
  intros (Hh & Hw & _) Hget. unfold getpixel, bind in Hget.
  destruct (nth_error (data img) y) as [row|] eqn:Hrow; [|discriminate].
  split.
  - rewrite Forall_forall in Hw.
    rewrite <- (Hw row (nth_error_In _ _ Hrow)).
    apply nth_error_Some. congruence.
  - rewrite <- Hh. apply nth_error_Some. congruence.
Qed.

Lemma getpixel_defined (img : image) (x y : nat) :
  wf img -> x < width img -> y < height img ->
  exists p, getpixel img x y = Some p /\ has_mode (mode img) p.
Proof.
  intros (Hh & Hw & Hm) Hx Hy. unfold getpixel, bind.
  destruct (nth_error (data img) y) as [row|] eqn:Hrow.
  - rewrite Forall_forall in Hw, Hm.
    pose proof (Hw row (nth_error_In _ _ Hrow)) as Hlen.
    destruct (nth_error row x) as [p|] eqn:Hp.
    + exists p. split; [reflexivity|].
      pose proof (Hm row (nth_error_In _ _ Hrow)) as Hrowm.
      rewrite Forall_forall in Hrowm. apply Hrowm.
      eapply nth_error_In; eassumption.
    + apply nth_error_None in Hp. lia.
  - apply nth_error_None in Hrow. lia.
Qed.

(** ** The loops and their list counterparts *)

Section ScanFacts.
Variable content : pixel -> option bool.
Variable c : pixel -> bool.
Variable img : image.
Hypothesis Hwf : wf img.
Hypothesis Hc : forall x y p,
  getpixel img x y = Some p -> content p = Some (c p).

Lemma line_has_content_pure (px : nat -> option pixel) (idxs : list nat) :
  (forall i, In i idxs -> exists p, px i = Some p /\ content p = Some (c p)) ->
  line_has_content content px idxs
  = Some (existsb (fun i => match px i with Some p => c p | None => false end)
            idxs).
Proof.
  induction idxs as [|i rest IH]; intros Hall; [reflexivity|].
  destruct (Hall i (or_introl eq_refl)) as (p & Hp & Hcp).
  cbn. rewrite Hp. cbn. rewrite Hcp. cbn.
  destruct (c p); [reflexivity|].
  apply IH. intros j Hj. apply Hall. now right.
Qed.

Lemma row_has_content_pure (y : nat) :
  y < height img -> row_has_content content img y = Some (row_fg c img y).
Proof.
  intros Hy. unfold row_has_content, row_fg, fgb.
  apply line_has_content_pure. intros x Hx. apply in_seq in Hx.
  destruct (@getpixel_defined img x y Hwf) as (p & Hp & _); [lia|lia|].
  exists p. split; [assumption|]. eapply Hc; eassumption.
Qed.

Lemma column_has_content_pure (x : nat) :
  x < width img -> column_has_content content img x = Some (col_fg c img x).
Proof.
  intros Hx. unfold column_has_content, col_fg, fgb.
  apply line_has_content_pure. intros y Hy. apply in_seq in Hy.
  destruct (@getpixel_defined img x y Hwf) as (p & Hp & _); [lia|lia|].
  exists p. split; [assumption|]. eapply Hc; eassumption.
Qed.

Lemma first_content_line_pure (line : nat -> option bool) (lb : nat -> bool)
    (idxs : list nat) (default : Z) :
  (forall i, In i idxs -> line i = Some (lb i)) ->
  first_content_line line idxs default = Some (first_or lb idxs default).
Proof.
  unfold first_or.
  induction idxs as [|i rest IH]; intros Hall; [reflexivity|].
  cbn. rewrite (Hall i (or_introl eq_refl)). cbn.
  destruct (lb i); [reflexivity|].
  apply IH. intros j Hj. apply Hall. now right.
Qed.

Lemma find_bounds_pure : find_bounds content img = Some (bounds c img).
Proof.
  unfold find_bounds, bounds.
  rewrite (@first_content_line_pure _ (row_fg c img)).
  2:{ intros y Hy. apply in_seq in Hy. apply row_has_content_pure. lia. }
  cbn. rewrite (@first_content_line_pure _ (row_fg c img)).
  2:{ intros y Hy. apply in_rev, in_seq in Hy. apply row_has_content_pure. lia. }
  cbn. rewrite (@first_content_line_pure _ (col_fg c img)).
  2:{ intros x Hx. apply in_seq in Hx. apply column_has_content_pure. lia. }
  cbn. rewrite (@first_content_line_pure _ (col_fg c img)).
  2:{ intros x Hx. apply in_rev, in_seq in Hx. apply column_has_content_pure. lia. }
  reflexivity.
Qed.

Lemma foreground_fgb (x y : nat) :
  foreground content img x y <-> fgb c img x y = true.
Proof.
  unfold foreground, fgb. split.
  - intros (p & Hp & Hcp). rewrite Hp.
    rewrite (Hc _ _ _ Hp) in Hcp. congruence.
  - destruct (getpixel img x y) as [p|] eqn:Hp; [|discriminate].
    intros Hcp. exists p. split; [reflexivity|].
    rewrite (Hc _ _ _ Hp). congruence.
Qed.
End ScanFacts.

(** ** First and last index of a list scan *)

Lemma find_seq_some (lb : nat -> bool) (n s i : nat) :
  find lb (seq s n) = Some i ->
  s <= i < s + n /\ lb i = true /\ forall j, s <= j < i -> lb j = false.
Proof.
  revert s. induction n as [|n IH]; intros s; cbn; [discriminate|].
  destruct (lb s) eqn:Hs.
  - intros [= <-]. repeat split; try lia. assumption.
  - intros Hfind. destruct (IH _ Hfind) as (Hr & Hi & Hbefore).
    repeat split; try lia; [assumption|].
    intros j Hj. destruct (Nat.eq_dec j s) as [->|Hne]; [assumption|].
    apply Hbefore. lia.
Qed.

Lemma find_rev_seq_some (lb : nat -> bool) (n i : nat) :
  find lb (rev (seq 0 n)) = Some i ->
  i < n /\ lb i = true /\ forall j, i < j < n -> lb j = false.
Proof.
  induction n as [|n IH]; [discriminate|].
  rewrite seq_S, rev_app_distr. cbn.
  destruct (lb n) eqn:Hn.
  - intros [= <-]. repeat split; try lia. assumption.
  - intros Hfind. destruct (IH Hfind) as (Hr & Hi & Hafter).
    repeat split; try lia; [assumption|].
    intros j Hj. destruct (Nat.eq_dec j n) as [->|Hne]; [assumption|].
    apply Hafter. lia.
Qed.

Lemma first_or_seq_cases (lb : nat -> bool) (n : nat) (d : Z) :
  (first_or lb (seq 0 n) d = d /\ forall j, j < n -> lb j = false) \/
  (exists i, first_or lb (seq 0 n) d = Z.of_nat i /\ i < n /\ lb i = true /\
             forall j, j < i -> lb j = false).
Proof.
  unfold first_or. destruct (find lb (seq 0 n)) as [i|] eqn:Hfind.
  - right. exists i. destruct (find_seq_some _ _ _ _ Hfind) as (Hr & Hi & Hb).
    repeat split; try lia; [assumption|]. intros j Hj. apply Hb. lia.
  - left. split; [reflexivity|]. intros j Hj.
    apply (find_none _ _ Hfind). apply in_seq. lia.
Qed.

Lemma first_or_rev_cases (lb : nat -> bool) (n : nat) (d : Z) :
  (first_or lb (rev (seq 0 n)) d = d /\ forall j, j < n -> lb j = false) \/
  (exists i, first_or lb (rev (seq 0 n)) d = Z.of_nat i /\ i < n /\
             lb i = true /\ forall j, i < j < n -> lb j = false).
Proof.
  unfold first_or. destruct (find lb (rev (seq 0 n))) as [i|] eqn:Hfind.
  - right. exists i. destruct (find_rev_seq_some _ _ _ Hfind) as (Hr & Hi & Hb).
    repeat split; assumption.
  - left. split; [reflexivity|]. intros j Hj.
    apply (find_none _ _ Hfind). apply in_rev. rewrite rev_involutive.
    apply in_seq. lia.
Qed.

(** ** The bounds as a bounding box *)

Section BoundsFacts.
Variable c : pixel -> bool.
Variable img : image.
Hypothesis Hwf : wf img.

Lemma fgb_range (x y : nat) :
  fgb c img x y = true -> x < width img /\ y < height img.
Proof.
  unfold fgb. destruct (getpixel img x y) as [p|] eqn:Hp; [|discriminate].
  intros _. eapply getpixel_range; eassumption.
Qed.

Lemma row_fg_true (y : nat) :
  row_fg c img y = true <-> exists x, fgb c img x y = true.
Proof.
  unfold row_fg. rewrite existsb_exists. split.
  - intros (x & _ & Hx). now exists x.
  - intros (x & Hx). exists x. split; [|assumption].
    apply in_seq. apply fgb_range in Hx. lia.
Qed.

Lemma col_fg_true (x : nat) :
  col_fg c img x = true <-> exists y, fgb c img x y = true.
Proof.
  unfold col_fg. rewrite existsb_exists. split.
  - intros (y & _ & Hy). now exists y.
  - intros (y & Hy). exists y. split; [|assumption].
    apply in_seq. apply fgb_range in Hy. lia.
Qed.

Lemma row_fg_false (y x : nat) :
  row_fg c img y = false -> fgb c img x y = false.
Proof.
  intros Hrow. destruct (fgb c img x y) eqn:Hfg; [|reflexivity].
  assert (row_fg c img y = true) by (apply row_fg_true; eauto). congruence.
Qed.

Lemma col_fg_false (x y : nat) :
  col_fg c img x = false -> fgb c img x y = false.
Proof.
  intros Hcol. destruct (fgb c img x y) eqn:Hfg; [|reflexivity].
  assert (col_fg c img x = true) by (apply col_fg_true; eauto). congruence.
Qed.

(** Either nothing is content and the bounds are the image's, or the four
    bounds are the extreme rows and columns that hold content. *)
Lemma bounds_cases :
  ((forall x y, fgb c img x y = false) /\ bounds c img = full_box img) \/
  (exists t b l r,
      bounds c img = nat_box t b l r /\
      t <= b < height img /\ l <= r < width img /\
      row_fg c img t = true /\ row_fg c img b = true /\
      col_fg c img l = true /\ col_fg c img r = true /\
      forall x y, fgb c img x y = true -> l <= x <= r /\ t <= y <= b).
Proof.
  unfold bounds.
  destruct (first_or_seq_cases (row_fg c img) (height img) 0)
    as [(Ht & Hnone)|(t & Ht & Htr & Htfg & Htmin)].
  - left.
    assert (Hno : forall x y, fgb c img x y = false).
    { intros x y. destruct (fgb c img x y) eqn:Hfg; [|reflexivity].
      pose proof (fgb_range _ _ Hfg) as (_ & Hy).
      rewrite <- Hfg. apply row_fg_false. now apply Hnone. }
    split; [assumption|].
    assert (Hcols : forall x, col_fg c img x = false).
    { intros x. destruct (col_fg c img x) eqn:Hcol; [|reflexivity].
      apply col_fg_true in Hcol as (y & Hy). rewrite Hno in Hy. discriminate. }
    unfold full_box. rewrite Ht. f_equal.
    + destruct (first_or_rev_cases (row_fg c img) (height img)
                  (Z.of_nat (height img) - 1))
        as [(Hb & _)|(b & _ & Hbr & Hbfg & _)]; [assumption|].
      rewrite Hnone in Hbfg by assumption. discriminate.
    + destruct (first_or_seq_cases (col_fg c img) (width img) 0)
        as [(Hl & _)|(l & _ & _ & Hlfg & _)]; [assumption|].
      rewrite Hcols in Hlfg. discriminate.
    + destruct (first_or_rev_cases (col_fg c img) (width img)
                  (Z.of_nat (width img) - 1))
        as [(Hr & _)|(r & _ & _ & Hrfg & _)]; [assumption|].
      rewrite Hcols in Hrfg. discriminate.
  - right.
    pose proof Htfg as Hsome. apply row_fg_true in Hsome as (x0 & Hx0).
    pose proof (fgb_range _ _ Hx0) as (Hx0r & _).
    assert (Hcol0 : col_fg c img x0 = true) by (apply col_fg_true; eauto).
    destruct (first_or_rev_cases (row_fg c img) (height img)
                (Z.of_nat (height img) - 1))
      as [(_ & Hnone)|(b & Hb & Hbr & Hbfg & Hbmax)].
    { rewrite Hnone in Htfg by assumption. discriminate. }
    destruct (first_or_seq_cases (col_fg c img) (width img) 0)
      as [(_ & Hnone)|(l & Hl & Hlr & Hlfg & Hlmin)].
    { rewrite Hnone in Hcol0 by assumption. discriminate. }
    destruct (first_or_rev_cases (col_fg c img) (width img)
                (Z.of_nat (width img) - 1))
      as [(_ & Hnone)|(r & Hr & Hrr & Hrfg & Hrmax)].
    { rewrite Hnone in Hcol0 by assumption. discriminate. }
    exists t, b, l, r. rewrite Ht, Hb, Hl, Hr.
    assert (Hin : forall x y, fgb c img x y = true ->
                              l <= x <= r /\ t <= y <= b).
    { intros x y Hfg. pose proof (fgb_range _ _ Hfg) as (Hxr & Hyr).
      assert (Hrow : row_fg c img y = true) by (apply row_fg_true; eauto).
      assert (Hcol : col_fg c img x = true) by (apply col_fg_true; eauto).
      repeat split.
      - destruct (le_lt_dec l x); [assumption|].
        rewrite Hlmin in Hcol by assumption. discriminate.
      - destruct (le_lt_dec x r); [assumption|].
        rewrite Hrmax in Hcol by lia. discriminate.
      - destruct (le_lt_dec t y); [assumption|].
        rewrite Htmin in Hrow by assumption. discriminate.
      - destruct (le_lt_dec y b); [assumption|].
        rewrite Hbmax in Hrow by lia. discriminate. }
    split; [reflexivity|].
    destruct (proj1 (row_fg_true _) Hbfg) as (xb & Hxb).
    destruct (proj1 (col_fg_true _) Hrfg) as (yr & Hyr).
    pose proof (Hin _ _ Hx0). pose proof (Hin _ _ Hxb).
    pose proof (Hin _ _ Hyr).
    split; [lia|]. split; [lia|]. repeat (split; [assumption|]). exact Hin.
Qed.
End BoundsFacts.

(** ** Cropping *)

Lemma In_firstn {A : Type} (n : nat) (l : list A) (a : A) :
  In a (firstn n l) -> In a l.
Proof.
  intros Hin. rewrite <- (firstn_skipn n l). apply in_or_app. now left.
Qed.

Lemma In_skipn {A : Type} (n : nat) (l : list A) (a : A) :
  In a (skipn n l) -> In a l.
Proof.
  intros Hin. rewrite <- (firstn_skipn n l). apply in_or_app. now right.
Qed.

Lemma nat_box_width (l r : nat) :
  Z.to_nat (Z.of_nat r + 1 - Z.of_nat l) = r + 1 - l.
Proof. lia. Qed.

Section CropFacts.
Variable img : image.
Hypothesis Hwf : wf img.
Variables t b l r : nat.
Hypothesis Hrows : t <= b < height img.
Hypothesis Hcols : l <= r < width img.

Lemma crop_size :
  width (crop_to_box img (nat_box t b l r)) = r + 1 - l /\
  height (crop_to_box img (nat_box t b l r)) = b + 1 - t.
Proof. unfold crop_to_box, crop, nat_box. cbn. lia. Qed.

Lemma getpixel_crop (i j : nat) :
  i < r + 1 - l -> j < b + 1 - t ->
  getpixel (crop_to_box img (nat_box t b l r)) i j
  = getpixel img (l + i) (t + j).
Proof.
  intros Hi Hj. unfold crop_to_box, crop, nat_box, getpixel. cbn.
  rewrite !nat_box_width, !Nat2Z.id.
  rewrite nth_error_map, nth_error_firstn, nth_error_skipn.
  apply Nat.ltb_lt in Hj as ->.
  destruct (nth_error (data img) (t + j)) as [row|]; [|reflexivity].
  cbn. rewrite nth_error_firstn, nth_error_skipn.
  apply Nat.ltb_lt in Hi as ->. reflexivity.
Qed.

Lemma wf_crop : wf (crop_to_box img (nat_box t b l r)).
Proof.
  destruct Hwf as (Hh & Hw & Hm).
  unfold wf, crop_to_box, crop, nat_box. cbn.
  rewrite !nat_box_width, !Nat2Z.id.
  assert (Hsub : forall row,
             In row (firstn (b + 1 - t) (skipn t (data img))) ->
             In row (data img)).
  { intros row Hin. eapply In_skipn, In_firstn. eassumption. }
  repeat split.
  - rewrite length_map, length_firstn, length_skipn. lia.
  - rewrite Forall_forall in *. intros row' Hin.
    apply in_map_iff in Hin as (row & <- & Hin).
    rewrite length_firstn, length_skipn, (Hw row (Hsub _ Hin)). lia.
  - rewrite Forall_forall in *. intros row' Hin.
    apply in_map_iff in Hin as (row & <- & Hin).
    pose proof (Hm row (Hsub _ Hin)) as Hrow.
    rewrite Forall_forall in *. intros p Hp. apply Hrow.
    eapply In_skipn, In_firstn. eassumption.
Qed.
End CropFacts.

Lemma crop_full (img : image) :
  wf img -> crop_to_box img (full_box img) = img.
Proof.
  intros (Hh & Hw & _). destruct img as [m w h rows]. cbn in *.
  unfold crop_to_box, crop, full_box. cbn.
  replace (Z.to_nat (Z.of_nat w - 1 + 1 - 0)) with w by lia.
  replace (Z.to_nat (Z.of_nat h - 1 + 1 - 0)) with h by lia.
  f_equal. rewrite <- Hh, firstn_all.
  clear Hh. induction rows as [|row rows IH]; [reflexivity|].
  inversion Hw as [|? ? Hrow Hrest]; subst. cbn.
  rewrite firstn_all, IH by assumption. reflexivity.
Qed.

(** ** The scan and the crop meet the specification *)

Section SpecFacts.
Variable content : pixel -> option bool.
Variable c : pixel -> bool.
Variable img : image.
Hypothesis Hwf : wf img.
Hypothesis Hc : forall x y p,
  getpixel img x y = Some p -> content p = Some (c p).

Lemma bounds_minimal_crop :
  minimal_crop content img (bounds c img) (crop_to_box img (bounds c img)).
Proof.
  pose proof (foreground_fgb content c img Hc) as fg_iff.
  unfold minimal_crop.
  destruct (bounds_cases c img Hwf)
    as [(Hno & ->)|(t & b & l & r & -> & Hrows & Hcols & Ht & Hb & Hl & Hr & Hin)].
  - (* no content *)
    assert (Hnofg : forall x y, ~ foreground content img x y).
    { intros x y Hfg. apply fg_iff in Hfg. rewrite Hno in Hfg. discriminate. }
    rewrite crop_full by assumption. cbn.
    split; [|split; [|split; [|split]]].
    + split; [lia|]. split; [lia|]. intros i j _ _. reflexivity.
    + intros _. split; reflexivity.
    + intros x y Hfg. destruct (Hnofg _ _ Hfg).
    + intros (x & y & Hfg). destruct (Hnofg _ _ Hfg).
    + intros x0 y0 Hfg. destruct (Hnofg _ _ Hfg).
  - (* content: the bounds are the extreme rows and columns *)
    destruct (crop_size img t b l r Hrows Hcols) as (Hw' & Hh').
    apply row_fg_true in Ht as (xt & Hxt); [|assumption].
    apply row_fg_true in Hb as (xb & Hxb); [|assumption].
    apply col_fg_true in Hl as (yl & Hyl); [|assumption].
    apply col_fg_true in Hr as (yr & Hyr); [|assumption].
    split; [|split; [|split; [|split]]].
    + rewrite Hw', Hh'. cbn. split; [lia|]. split; [lia|].
      intros i j Hi Hj. rewrite !Nat2Z.id.
      apply getpixel_crop; assumption.
    + intros Hnofg. exfalso. apply (Hnofg xt t). now apply fg_iff.
    + intros x y Hfg. apply fg_iff in Hfg. apply Hin in Hfg.
      unfold inside. cbn. lia.
    + intros _ box' Hall.
      apply fg_iff in Hxt, Hxb, Hyl, Hyr.
      apply Hall in Hxt, Hxb, Hyl, Hyr. unfold inside in *. cbn. lia.
    + intros x0 y0 Hfg0 Huniq.
      apply fg_iff in Hxt, Hxb, Hyl, Hyr.
      apply Huniq in Hxt, Hxb, Hyl, Hyr.
      destruct Hxt as (_ & ->), Hxb as (_ & ->), Hyl as (-> & _), Hyr as (-> & _).
      rewrite Hw', Hh'. repeat split; lia.
Qed.
End SpecFacts.

(** A second scan of the crop, with the same test, trims nothing. *)
Lemma bounds_crop_full (c : pixel -> bool) (img : image) :
  wf img ->
  let out := crop_to_box img (bounds c img) in
  wf out /\ bounds c out = full_box out.
Proof.
  intros Hwf out. subst out.
  destruct (bounds_cases c img Hwf)
    as [(Hno & Hfull)|(t & b & l & r & Hbox & Hrows & Hcols & Ht & Hb & Hl & Hr & Hin)].
  - rewrite Hfull, crop_full by assumption. split; [assumption|].
    rewrite <- Hfull. reflexivity.
  - rewrite Hbox.
    pose proof (wf_crop img Hwf t b l r Hrows Hcols) as Hwf'.
    destruct (crop_size img t b l r Hrows Hcols) as (Hw' & Hh').
    set (out := crop_to_box img _) in *.
    split; [assumption|].
    assert (Hfgb : forall i j, i < r + 1 - l -> j < b + 1 - t ->
                     fgb c out i j = fgb c img (l + i) (t + j)).
    { intros i j Hi Hj. unfold fgb, out.
      rewrite getpixel_crop by assumption. reflexivity. }
    apply row_fg_true in Ht as (xt & Hxt); [|assumption].
    apply row_fg_true in Hb as (xb & Hxb); [|assumption].
    apply col_fg_true in Hl as (yl & Hyl); [|assumption].
    apply col_fg_true in Hr as (yr & Hyr); [|assumption].
    pose proof (Hin _ _ Hxt) as Rt. pose proof (Hin _ _ Hxb) as Rb.
    pose proof (Hin _ _ Hyl) as Rl. pose proof (Hin _ _ Hyr) as Rr.
    assert (Ft : fgb c out (xt - l) 0 = true).
    { rewrite Hfgb by lia. rewrite <- Hxt. f_equal; lia. }
    assert (Fb : fgb c out (xb - l) (b - t) = true).
    { rewrite Hfgb by lia. rewrite <- Hxb. f_equal; lia. }
    assert (Fl : fgb c out 0 (yl - t) = true).
    { rewrite Hfgb by lia. rewrite <- Hyl. f_equal; lia. }
    assert (Fr : fgb c out (r - l) (yr - t) = true).
    { rewrite Hfgb by lia. rewrite <- Hyr. f_equal; lia. }
    destruct (bounds_cases c _ Hwf')
      as [(Hno & _)|(t' & b' & l' & r' & -> & Hrows' & Hcols' & _ & _ & _ & _ & Hin')].
    + rewrite Hno in Ft. discriminate.
    + apply Hin' in Ft, Fb, Fl, Fr. unfold full_box, nat_box.
      rewrite Hw', Hh' in *. f_equal; lia.
Qed.

(** ** Mode conversion *)

Lemma mode_eqb_eq (m1 m2 : image_mode) : mode_eqb m1 m2 = true <-> m1 = m2.
Proof. destruct m1, m2; cbn; split; congruence. Qed.

Lemma has_mode_convert (m : image_mode) (p : pixel) :
  has_mode m (match m with ModeRGBA => to_RGBA | ModeRGB => to_RGB end p).
Proof. destruct m, p; exact I. Qed.

Lemma ensure_mode_wf (m : image_mode) (img : image) :
  wf img ->
  wf (ensure_mode m img) /\ mode (ensure_mode m img) = m /\
  width (ensure_mode m img) = width img /\
  height (ensure_mode m img) = height img.
Proof.
  intros Hwf. unfold ensure_mode.
  destruct (mode_eqb (mode img) m) eqn:Hm.
  - apply mode_eqb_eq in Hm.
    split; [assumption|]. split; [assumption|]. split; reflexivity.
  - destruct Hwf as (Hh & Hw & _). unfold wf, convert. cbn.
    repeat split; try reflexivity.
    + now rewrite length_map.
    + rewrite Forall_forall in *. intros row' Hin.
      apply in_map_iff in Hin as (row & <- & Hin).
      rewrite length_map. now apply Hw.
    + rewrite Forall_forall. intros row' Hin.
      apply in_map_iff in Hin as (row & <- & Hin).
      rewrite Forall_forall. intros p' Hp.
      apply in_map_iff in Hp as (p & <- & Hp). apply has_mode_convert.
Qed.

Lemma ensure_mode_same (m : image_mode) (img : image) :
  mode img = m -> ensure_mode m img = img.
Proof.
  intros Hm. unfold ensure_mode.
  apply mode_eqb_eq in Hm. now rewrite Hm.
Qed.

Lemma getpixel_has_mode (img : image) (x y : nat) (p : pixel) :
  wf img -> getpixel img x y = Some p -> has_mode (mode img) p.
Proof.
  intros Hwf Hp. destruct (getpixel_range img x y p Hwf Hp) as (Hx & Hy).
  destruct (getpixel_defined img x y Hwf Hx Hy) as (p' & Hp' & Hm).
  congruence.
Qed.

(** ** The tests of the two scripts never raise after the conversion *)

Lemma not_background_pure (bg_color : pixel) (tolerance : Z) (p : pixel) :
  has_mode ModeRGBA bg_color -> has_mode ModeRGBA p ->
  not_background bg_color tolerance p = Some (content_tol bg_color tolerance p).
Proof.
  destruct bg_color as [|br bg bb ba]; [intros []|].
  destruct p as [|r g b a]; [intros _ []|]. intros _ _.
  unfold not_background, is_background, content_tol. cbn.
  destruct (a <? 10)%Z; reflexivity.
Qed.

Lemma non_white_pure (threshold : Z) (p : pixel) :
  has_mode ModeRGB p -> non_white threshold p = Some (content_thr threshold p).
Proof. destruct p; [reflexivity|intros []]. Qed.

Lemma get_background_color_corner (img : image) :
  wf img -> 0 < width img -> 0 < height img ->
  exists bg, getpixel img 0 0 = Some bg /\ has_mode (mode img) bg /\
             get_background_color img = Some bg.
Proof.
  intros Hwf Hw Hh. unfold get_background_color.
  destruct (getpixel_defined img 0 0 Hwf Hw Hh) as (c0 & -> & Hm).
  destruct (getpixel_defined img (width img - 1) 0 Hwf) as (c1 & -> & _);
    [lia|lia|].
  destruct (getpixel_defined img 0 (height img - 1) Hwf) as (c2 & -> & _);
    [lia|lia|].
  destruct (getpixel_defined img (width img - 1) (height img - 1) Hwf)
    as (c3 & -> & _); [lia|lia|].
  exists c0. repeat split; assumption.
Qed.

(** ** The two scripts as list functions *)

Lemma remove_border_pure (input : image) (tolerance : Z) :
  wf input -> 0 < width input -> 0 < height input ->
  let img := ensure_mode ModeRGBA input in
  exists bg,
    getpixel img 0 0 = Some bg /\ has_mode ModeRGBA bg /\
    (forall x y p, getpixel img x y = Some p ->
       not_background bg tolerance p = Some (content_tol bg tolerance p)) /\
    remove_border input tolerance
    = Some (bounds (content_tol bg tolerance) img,
            crop_to_box img (bounds (content_tol bg tolerance) img)).
Proof.
  intros Hwf Hw Hh img.
  destruct (ensure_mode_wf ModeRGBA input Hwf) as (Hwf' & Hm' & Hw' & Hh').
  fold img in Hwf', Hm', Hw', Hh'.
  destruct (get_background_color_corner img Hwf') as (bg & Hbg & Hbgm & Hget);
    [lia|lia|].
  rewrite Hm' in Hbgm.
  assert (Hc : forall x y p, getpixel img x y = Some p ->
             not_background bg tolerance p = Some (content_tol bg tolerance p)).
  { intros x y p Hp. apply not_background_pure; [assumption|].
    rewrite <- Hm'. eapply getpixel_has_mode; eassumption. }
  exists bg. repeat split; try assumption.
  unfold remove_border. fold img. rewrite Hget. cbn.
  rewrite (find_bounds_pure _ (content_tol bg tolerance) img Hwf' Hc).
  reflexivity.
Qed.

Lemma remove_white_border_pure (input : image) (threshold : Z) :
  wf input ->
  let img := ensure_mode ModeRGB input in
  (forall x y p, getpixel img x y = Some p ->
     non_white threshold p = Some (content_thr threshold p)) /\
  remove_white_border input threshold
  = Some (bounds (content_thr threshold) img,
          crop_to_box img (bounds (content_thr threshold) img)).
Proof.
  intros Hwf img.
  destruct (ensure_mode_wf ModeRGB input Hwf) as (Hwf' & Hm' & _).
  fold img in Hwf', Hm'.
  assert (Hc : forall x y p, getpixel img x y = Some p ->
             non_white threshold p = Some (content_thr threshold p)).
  { intros x y p Hp. apply non_white_pure.
    rewrite <- Hm'. eapply getpixel_has_mode; eassumption. }
  split; [assumption|].
  unfold remove_white_border. fold img.
  rewrite (find_bounds_pure _ (content_thr threshold) img Hwf' Hc).
  reflexivity.
Qed.

Ltac solve_wf := unfold wf, has_mode; cbn; repeat constructor.

(** ** The crop is the minimal bounding box of the content *)

Lemma no_foreground_same_size (content : pixel -> option bool)
    (input img : image) (box : bbox) (out : image) :
  width img = width input -> height img = height input ->
  minimal_crop content img box out ->
  (forall x y, ~ foreground content img x y) ->
  width out = width input /\ height out = height input.
Proof.
  intros Hw Hh (_ & Hnone & _) Hno.
  destruct (Hnone Hno) as (_ & ->). split; assumption.
Qed.

(** C1. For every non-empty image and sensitivity, both scripts return the
    subimage of the minimal rectangle that holds every pixel classified as
    not background; an image of background only is returned whole, with the
    size of the input; a single content pixel gives a crop of one pixel whose
    four bounds are that pixel's row and column. *)
Theorem crop_is_minimal_bounding_box (input : image) (tolerance threshold : Z) :
  wf input -> 0 < width input -> 0 < height input ->
  (exists bg box out,
      let img := ensure_mode ModeRGBA input in
      getpixel img 0 0 = Some bg /\
      remove_border input tolerance = Some (box, out) /\
      minimal_crop (not_background bg tolerance) img box out /\
      ((forall x y, ~ foreground (not_background bg tolerance) img x y) ->
       width out = width input /\ height out = height input)) /\
  (exists box out,
      let img := ensure_mode ModeRGB input in
      remove_white_border input threshold = Some (box, out) /\
      minimal_crop (non_white threshold) img box out /\
      ((forall x y, ~ foreground (non_white threshold) img x y) ->
       width out = width input /\ height out = height input)).
Proof.
  intros Hwf Hw Hh. split.
  - destruct (remove_border_pure input tolerance Hwf Hw Hh)
      as (bg & Hbg & _ & Hc & Hrun).
    destruct (ensure_mode_wf ModeRGBA input Hwf) as (Hwf' & _ & Hw' & Hh').
    exists bg, (bounds (content_tol bg tolerance) (ensure_mode ModeRGBA input)),
      (crop_to_box (ensure_mode ModeRGBA input)
         (bounds (content_tol bg tolerance) (ensure_mode ModeRGBA input))).
    cbn zeta.
    pose proof (bounds_minimal_crop _ _ _ Hwf' Hc) as Hmin.
    repeat (split; [assumption|]).
    eapply no_foreground_same_size; eassumption.
  - destruct (remove_white_border_pure input threshold Hwf) as (Hc & Hrun).
    destruct (ensure_mode_wf ModeRGB input Hwf) as (Hwf' & _ & Hw' & Hh').
    exists (bounds (content_thr threshold) (ensure_mode ModeRGB input)),
      (crop_to_box (ensure_mode ModeRGB input)
         (bounds (content_thr threshold) (ensure_mode ModeRGB input))).
    cbn zeta.
    pose proof (bounds_minimal_crop _ _ _ Hwf' Hc) as Hmin.
    repeat (split; [assumption|]).
    eapply no_foreground_same_size; eassumption.
Qed.

Lemma crop_is_minimal_bounding_box_witness :
  (exists bg box out,
      let img := ensure_mode ModeRGBA strip3 in
      getpixel img 0 0 = Some bg /\
      remove_border strip3 30 = Some (box, out) /\
      minimal_crop (not_background bg 30) img box out /\
      ((forall x y, ~ foreground (not_background bg 30) img x y) ->
       width out = width strip3 /\ height out = height strip3)) /\
  (exists box out,
      let img := ensure_mode ModeRGB strip3 in
      remove_white_border strip3 250 = Some (box, out) /\
      minimal_crop (non_white 250) img box out /\
      ((forall x y, ~ foreground (non_white 250) img x y) ->
       width out = width strip3 /\ height out = height strip3)).
Proof.
  apply (crop_is_minimal_bounding_box strip3 30 250);
    [solve_wf | cbn; lia | cbn; lia].
Defined.

(** ** The bounds are always valid *)

Lemma bounds_valid (c : pixel -> bool) (img : image) :
  wf img -> 0 < width img -> 0 < height img ->
  let box := bounds c img in
  valid_box img box /\
  1 <= width (crop_to_box img box) <= width img /\
  1 <= height (crop_to_box img box) <= height img.
Proof.
  intros Hwf Hw Hh box. subst box.
  destruct (bounds_cases c img Hwf)
    as [(_ & ->)|(t & b & l & r & -> & Hrows & Hcols & _)].
  - rewrite crop_full by assumption.
    unfold valid_box, full_box. cbn. lia.
  - destruct (crop_size img t b l r Hrows Hcols) as (-> & ->).
    unfold valid_box. cbn. lia.
Qed.

(** C8. For every non-empty image and any sensitivity, the four scans of
    both scripts return (no exception, no divergence: the scans are
    structural recursions) bounds with [0 <= top <= bottom < height] and
    [0 <= left <= right < width], and the crop is a non-empty rectangle no
    larger than the input. *)
Theorem boundary_scan_total_and_valid (input : image) (tolerance threshold : Z) :
  wf input -> 0 < width input -> 0 < height input ->
  (exists box out,
      remove_border input tolerance = Some (box, out) /\
      valid_box input box /\
      1 <= width out <= width input /\ 1 <= height out <= height input) /\
  (exists box out,
      remove_white_border input threshold = Some (box, out) /\
      valid_box input box /\
      1 <= width out <= width input /\ 1 <= height out <= height input).
Proof.
  intros Hwf Hw Hh. split.
  - destruct (remove_border_pure input tolerance Hwf Hw Hh)
      as (bg & _ & _ & _ & Hrun).
    destruct (ensure_mode_wf ModeRGBA input Hwf) as (Hwf' & _ & Hw' & Hh').
    destruct (bounds_valid (content_tol bg tolerance) _ Hwf') as (Hv & Hcw & Hch);
      [lia|lia|].
    eexists _, _. split; [exact Hrun|].
    unfold valid_box in *. rewrite Hw', Hh' in *. repeat split; lia.
  - destruct (remove_white_border_pure input threshold Hwf) as (_ & Hrun).
    destruct (ensure_mode_wf ModeRGB input Hwf) as (Hwf' & _ & Hw' & Hh').
    destruct (bounds_valid (content_thr threshold) _ Hwf') as (Hv & Hcw & Hch);
      [lia|lia|].
    eexists _, _. split; [exact Hrun|].
    unfold valid_box in *. rewrite Hw', Hh' in *. repeat split; lia.
Qed.

Lemma boundary_scan_total_and_valid_witness :
  (exists box out,
      remove_border strip3 30 = Some (box, out) /\
      valid_box strip3 box /\
      1 <= width out <= width strip3 /\ 1 <= height out <= height strip3) /\
  (exists box out,
      remove_white_border strip3 250 = Some (box, out) /\
      valid_box strip3 box /\
      1 <= width out <= width strip3 /\ 1 <= height out <= height strip3).
Proof.
  apply (boundary_scan_total_and_valid strip3 30 250);
    [solve_wf | cbn; lia | cbn; lia].
Defined.

(** ** Threshold mode *)

Lemma ensure_mode_mode (m : image_mode) (img : image) :
  mode (ensure_mode m img) = m.
Proof.
  unfold ensure_mode. destruct (mode_eqb (mode img) m) eqn:Hm.
  - now apply mode_eqb_eq.
  - reflexivity.
Qed.

Lemma ensure_mode_idem (m : image_mode) (img : image) :
  ensure_mode m (ensure_mode m img) = ensure_mode m img.
Proof. apply ensure_mode_same, ensure_mode_mode. Qed.

(** C6. In threshold mode a pixel is background exactly when each of its
    three channels is at least the threshold, and content exactly when one
    channel is strictly below it; the alpha channel plays no part, since
    the conversion to RGB, which comes first, drops it. *)
Theorem threshold_background_iff (threshold r g b : Z) :
  (non_white threshold (RGB r g b) = Some false <->
   (threshold <= r /\ threshold <= g /\ threshold <= b)%Z) /\
  (non_white threshold (RGB r g b) = Some true <->
   (r < threshold \/ g < threshold \/ b < threshold)%Z) /\
  non_white threshold (RGB threshold threshold threshold) = Some false /\
  (forall a, non_white threshold (to_RGB (RGBA r g b a))
             = non_white threshold (RGB r g b)) /\
  (forall input, remove_white_border input threshold
                 = remove_white_border (ensure_mode ModeRGB input) threshold).
Proof.
  unfold non_white.
  split; [|split; [|split; [|split]]].
  - destruct (Z.ltb_spec r threshold), (Z.ltb_spec g threshold),
      (Z.ltb_spec b threshold); cbn; split; intros Hyp;
      try discriminate; try reflexivity; lia.
  - destruct (Z.ltb_spec r threshold), (Z.ltb_spec g threshold),
      (Z.ltb_spec b threshold); cbn; split; intros Hyp;
      try discriminate; try reflexivity; lia.
  - rewrite Z.ltb_irrefl. reflexivity.
  - reflexivity.
  - intros input. unfold remove_white_border.
    rewrite ensure_mode_idem. reflexivity.
Qed.

(** ** Tolerance mode *)

(** C7. The background reference of tolerance mode is the top-left pixel:
    the four corners are read, the first one is returned, so two images
    with the same top-left pixel have the same reference whatever their
    other corners, and that reference is the one of every comparison of
    the scan. *)
Theorem background_reference_is_top_left (img1 img2 : image) (tolerance : Z) :
  wf img1 -> 0 < width img1 -> 0 < height img1 ->
  wf img2 -> 0 < width img2 -> 0 < height img2 ->
  get_background_color img1 = getpixel img1 0 0 /\
  (getpixel img1 0 0 = getpixel img2 0 0 ->
   get_background_color img1 = get_background_color img2) /\
  (exists bg,
      getpixel (ensure_mode ModeRGBA img1) 0 0 = Some bg /\
      remove_border img1 tolerance
      = (box <- find_bounds (not_background bg tolerance)
                  (ensure_mode ModeRGBA img1) ;;
         Some (box, crop_to_box (ensure_mode ModeRGBA img1) box))).
Proof.
  intros Hwf1 Hw1 Hh1 Hwf2 Hw2 Hh2.
  destruct (get_background_color_corner img1 Hwf1 Hw1 Hh1) as (bg1 & Hp1 & _ & Hg1).
  destruct (get_background_color_corner img2 Hwf2 Hw2 Hh2) as (bg2 & Hp2 & _ & Hg2).
  split; [congruence|]. split; [congruence|].
  destruct (ensure_mode_wf ModeRGBA img1 Hwf1) as (Hwf' & _ & Hw' & Hh').
  destruct (get_background_color_corner _ Hwf') as (bg & Hp & _ & Hg); [lia|lia|].
  exists bg. split; [assumption|].
  unfold remove_border. rewrite Hg. reflexivity.
Qed.

Lemma background_reference_is_top_left_witness :
  get_background_color strip3 = getpixel strip3 0 0 /\
  (getpixel strip3 0 0 = getpixel strip3_other_corners 0 0 ->
   get_background_color strip3 = get_background_color strip3_other_corners) /\
  (exists bg,
      getpixel (ensure_mode ModeRGBA strip3) 0 0 = Some bg /\
      remove_border strip3 30
      = (box <- find_bounds (not_background bg 30)
                  (ensure_mode ModeRGBA strip3) ;;
         Some (box, crop_to_box (ensure_mode ModeRGBA strip3) box))).
Proof.
  apply (background_reference_is_top_left strip3 strip3_other_corners 30);
    solve [solve_wf | cbn; lia].
Defined.

(** ** Transparent pixels *)

Lemma existsb_pointwise {A : Type} (f g : A -> bool) (l : list A) :
  (forall a, f a = g a) -> existsb f l = existsb g l.
Proof.
  intros Hfg. induction l as [|a l IH]; [reflexivity|].
  cbn. now rewrite Hfg, IH.
Qed.

Lemma first_or_pointwise (f g : nat -> bool) (l : list nat) (d : Z) :
  (forall a, f a = g a) -> first_or f l d = first_or g l d.
Proof.
  intros Hfg. unfold first_or.
  induction l as [|a l IH]; [reflexivity|].
  cbn. rewrite Hfg. destruct (g a); [reflexivity|exact IH].
Qed.

Lemma bounds_pointwise (c1 c2 : pixel -> bool) (img1 img2 : image) :
  width img1 = width img2 -> height img1 = height img2 ->
  (forall x y, fgb c1 img1 x y = fgb c2 img2 x y) ->
  bounds c1 img1 = bounds c2 img2.
Proof.
  intros Hw Hh Hfg.
  assert (Hrow : forall y, row_fg c1 img1 y = row_fg c2 img2 y).
  { intros y. unfold row_fg. rewrite Hw. apply existsb_pointwise.
    intros x. apply Hfg. }
  assert (Hcol : forall x, col_fg c1 img1 x = col_fg c2 img2 x).
  { intros x. unfold col_fg. rewrite Hh. apply existsb_pointwise.
    intros y. apply Hfg. }
  unfold bounds. rewrite Hw, Hh.
  f_equal; apply first_or_pointwise; assumption.
Qed.

Lemma content_tol_transparent (bg_color : pixel) (tolerance : Z) (p : pixel) :
  (alpha_of p < 10)%Z -> content_tol bg_color tolerance p = false.
Proof.
  intros Ha. unfold content_tol.
  destruct (rgb_of bg_color) as ((bg_r & bg_g) & bg_b).
  destruct (rgb_of p) as ((r & g) & b).
  apply Z.ltb_lt in Ha. rewrite Ha. reflexivity.
Qed.

Lemma content_tol_same_rgb (bg1 bg2 : pixel) (tolerance : Z) (p : pixel) :
  rgb_of bg1 = rgb_of bg2 ->
  content_tol bg1 tolerance p = content_tol bg2 tolerance p.
Proof. intros Hrgb. unfold content_tol. rewrite Hrgb. reflexivity. Qed.

(** The colour of a pixel of alpha below 10 does not move the bounds: two
    images that differ only in such pixels (and keep the colour of the
    top-left reference) get the same bounds. *)
Theorem transparent_pixel_is_background
    (img1 img2 : image) (tolerance : Z) :
  wf img1 -> 0 < width img1 -> 0 < height img1 ->
  wf img2 -> mode img1 = ModeRGBA -> mode img2 = ModeRGBA ->
  width img2 = width img1 -> height img2 = height img1 ->
  (forall bg1 bg2, getpixel img1 0 0 = Some bg1 ->
     getpixel img2 0 0 = Some bg2 -> rgb_of bg1 = rgb_of bg2) ->
  (forall x y p1 p2, getpixel img1 x y = Some p1 ->
     getpixel img2 x y = Some p2 ->
     p1 = p2 \/ ((alpha_of p1 < 10)%Z /\ (alpha_of p2 < 10)%Z)) ->
  (forall bg_r bg_g bg_b bg_a r g b a, (a < 10)%Z ->
     is_background (RGBA bg_r bg_g bg_b bg_a) tolerance (RGBA r g b a)
     = Some true) /\
  (exists box out1 out2,
      remove_border img1 tolerance = Some (box, out1) /\
      remove_border img2 tolerance = Some (box, out2)).
Proof.
  intros Hwf1 Hw1 Hh1 Hwf2 Hm1 Hm2 Hw Hh Hbg Hsame. split.
  - intros bg_r bg_g bg_b bg_a r g b a Ha. unfold is_background.
    apply Z.ltb_lt in Ha. rewrite Ha. reflexivity.
  - destruct (remove_border_pure img1 tolerance Hwf1 Hw1 Hh1)
      as (bg1 & Hbg1 & _ & _ & Hrun1).
    destruct (remove_border_pure img2 tolerance Hwf2) as (bg2 & Hbg2 & _ & _ & Hrun2);
      [lia|lia|].
    rewrite (ensure_mode_same _ _ Hm1) in *.
    rewrite (ensure_mode_same _ _ Hm2) in *.
    rewrite Hrun1, Hrun2.
    assert (Heq : bounds (content_tol bg1 tolerance) img1
                  = bounds (content_tol bg2 tolerance) img2).
    { apply bounds_pointwise; [congruence|congruence|].
      intros x y. unfold fgb.
      destruct (getpixel img1 x y) as [p1|] eqn:Hp1.
      - destruct (getpixel_range _ _ _ _ Hwf1 Hp1) as (Hx & Hy).
        destruct (getpixel_defined img2 x y Hwf2) as (p2 & Hp2 & _);
          [lia|lia|].
        rewrite Hp2.
        rewrite (content_tol_same_rgb bg1 bg2) by (eapply Hbg; eassumption).
        destruct (Hsame _ _ _ _ Hp1 Hp2) as [->|(Ha1 & Ha2)]; [reflexivity|].
        now rewrite !content_tol_transparent.
      - destruct (getpixel img2 x y) as [p2|] eqn:Hp2; [|reflexivity].
        destruct (getpixel_range _ _ _ _ Hwf2 Hp2) as (Hx & Hy).
        destruct (getpixel_defined img1 x y Hwf1) as (p1 & Hp1' & _);
          [lia|lia|]. congruence. }
    rewrite Heq. eexists _, _, _. split; reflexivity.
Qed.

(** ** A second crop *)

Lemma content_tol_rgb_pointwise (bg1 bg2 : pixel) (tolerance : Z) (img : image) :
  rgb_of bg1 = rgb_of bg2 ->
  forall x y, fgb (content_tol bg1 tolerance) img x y
              = fgb (content_tol bg2 tolerance) img x y.
Proof.
  intros Hrgb x y. unfold fgb.
  destruct (getpixel img x y); [|reflexivity].
  now apply content_tol_same_rgb.
Qed.

Lemma remove_white_border_again (input : image) (threshold : Z) :
  wf input ->
  exists box out,
    remove_white_border input threshold = Some (box, out) /\
    remove_white_border out threshold = Some (full_box out, out).
Proof.
  intros Hwf.
  destruct (remove_white_border_pure input threshold Hwf) as (_ & Hrun).
  destruct (ensure_mode_wf ModeRGB input Hwf) as (Hwf' & Hm' & _).
  set (img := ensure_mode ModeRGB input) in *.
  set (c := content_thr threshold) in *.
  destruct (bounds_crop_full c img Hwf') as (Hwfo & Hfull).
  exists (bounds c img), (crop_to_box img (bounds c img)).
  split; [exact Hrun|].
  set (out := crop_to_box img (bounds c img)) in *.
  destruct (remove_white_border_pure out threshold Hwfo) as (_ & Hrun2).
  assert (Hmo : mode out = ModeRGB) by exact Hm'.
  rewrite (ensure_mode_same _ _ Hmo) in Hrun2.
  fold c in Hrun2. rewrite Hfull, crop_full in Hrun2 by assumption.
  exact Hrun2.
Qed.

Lemma remove_border_again (input : image) (tolerance : Z) :
  wf input -> 0 < width input -> 0 < height input ->
  exists bg box out,
    getpixel (ensure_mode ModeRGBA input) 0 0 = Some bg /\
    remove_border input tolerance = Some (box, out) /\
    (forall bg', getpixel out 0 0 = Some bg' -> rgb_of bg' = rgb_of bg ->
       remove_border out tolerance = Some (full_box out, out)) /\
    (top box = 0%Z -> left box = 0%Z ->
     remove_border out tolerance = Some (full_box out, out)).
Proof.
  intros Hwf Hw Hh.
  destruct (remove_border_pure input tolerance Hwf Hw Hh)
    as (bg & Hbg & _ & Hc & Hrun).
  destruct (ensure_mode_wf ModeRGBA input Hwf) as (Hwf' & Hm' & Hw' & Hh').
  set (img := ensure_mode ModeRGBA input) in *.
  set (c := content_tol bg tolerance) in *.
  destruct (bounds_crop_full c img Hwf') as (Hwfo & Hfull).
  destruct (bounds_valid c img Hwf') as (_ & Hcw & Hch); [lia|lia|].
  pose proof (bounds_minimal_crop _ c img Hwf' Hc) as ((_ & _ & Hsub) & _).
  exists bg, (bounds c img), (crop_to_box img (bounds c img)).
  set (out := crop_to_box img (bounds c img)) in *.
  split; [exact Hbg|]. split; [exact Hrun|].
  assert (Hmo : mode out = ModeRGBA) by exact Hm'.
  assert (Hagain : forall bg', getpixel out 0 0 = Some bg' ->
            rgb_of bg' = rgb_of bg ->
            remove_border out tolerance = Some (full_box out, out)).
  { intros bg' Hbg' Hrgb.
    destruct (remove_border_pure out tolerance Hwfo) as (bg2 & Hbg2 & _ & _ & Hrun2);
      [lia|lia|].
    rewrite (ensure_mode_same _ _ Hmo) in Hbg2, Hrun2.
    assert (bg2 = bg') by congruence. subst bg2.
    rewrite (bounds_pointwise (content_tol bg' tolerance) c out out eq_refl eq_refl)
      in Hrun2 by (apply content_tol_rgb_pointwise; assumption).
    rewrite Hfull, crop_full in Hrun2 by assumption. exact Hrun2. }
  split; [exact Hagain|].
  intros Htop Hleft. apply (Hagain bg); [|reflexivity].
  rewrite Hsub by lia. rewrite Htop, Hleft. exact Hbg.
Qed.

(** C2, as the code has it. A second run of the threshold-mode crop on its
    own output returns that output unchanged, for every image and threshold.
    A second run of the tolerance-mode crop does so whenever the top-left
    pixel of the output has the colour of the top-left pixel of the input,
    in particular when the first run trimmed nothing at the top and at the
    left; the reference is sampled again from the output otherwise. *)
Theorem crop_twice (input : image) (tolerance threshold : Z) :
  wf input -> 0 < width input -> 0 < height input ->
  (exists box out,
      remove_white_border input threshold = Some (box, out) /\
      remove_white_border out threshold = Some (full_box out, out)) /\
  (exists bg box out,
      getpixel (ensure_mode ModeRGBA input) 0 0 = Some bg /\
      remove_border input tolerance = Some (box, out) /\
      (forall bg', getpixel out 0 0 = Some bg' -> rgb_of bg' = rgb_of bg ->
         remove_border out tolerance = Some (full_box out, out)) /\
      (top box = 0%Z -> left box = 0%Z ->
       remove_border out tolerance = Some (full_box out, out))).
Proof.
  intros Hwf Hw Hh. split.
  - now apply remove_white_border_again.
  - now apply remove_border_again.
Qed.

(** ** Padding *)

Lemma nth_error_imap_from {A B : Type} (f : nat -> A -> B) (l : list A)
    (i k : nat) :
  nth_error (imap_from f i l) k = option_map (f (i + k)) (nth_error l k).
Proof.
  revert i k. induction l as [|a l IH]; intros i [|k]; cbn; try reflexivity.
  - now rewrite Nat.add_0_r.
  - rewrite IH. now rewrite Nat.add_succ_r.
Qed.

Lemma length_imap_from {A B : Type} (f : nat -> A -> B) (l : list A) (i : nat) :
  length (imap_from f i l) = length l.
Proof.
  revert i. induction l as [|a l IH]; intros i; cbn; [reflexivity|].
  now rewrite IH.
Qed.

Lemma In_imap_from {A B : Type} (f : nat -> A -> B) (l : list A) (i : nat)
    (b : B) :
  In b (imap_from f i l) -> exists k a, In a l /\ b = f k a.
Proof.
  revert i. induction l as [|a l IH]; intros i; cbn; [intros []|].
  intros [<-|Hin].
  - exists i, a. split; [now left|reflexivity].
  - destruct (IH _ Hin) as (k & a' & Ha' & ->).
    exists k, a'. split; [now right|reflexivity].
Qed.

Lemma DIV255_opaque (c : Z) : (0 <= c <= 255)%Z -> DIV255 (c * 255) = c.
Proof.
  intros Hc. unfold DIV255. cbv zeta. rewrite !Z.shiftr_div_pow2 by lia.
  change (2 ^ 8)%Z with 256%Z. Z.div_mod_to_equations. lia.
Qed.

Lemma DIV255_transparent (c : Z) : DIV255 (c * 0) = 0%Z.
Proof. rewrite Z.mul_0_r. reflexivity. Qed.

(** The pixel that [paste] leaves on the transparent canvas where a source
    pixel falls. *)
Lemma paste_pixel_on_transparent (p : pixel) :
  paste_pixel (RGBA 0 0 0 0) p p
  = let '(r, g, b, a) := channels p in
    RGBA (DIV255 (r * a)) (DIV255 (g * a)) (DIV255 (b * a)) (DIV255 (a * a)).
Proof.
  unfold paste_pixel. destruct (channels p) as (((r & g) & b) & a).
  cbn [channels]. unfold BLEND. rewrite !Z.mul_0_l, !Z.add_0_l. reflexivity.
Qed.

Lemma has_mode_paste_pixel (d s m : pixel) :
  has_mode ModeRGBA (paste_pixel d s m).
Proof.
  unfold paste_pixel.
  destruct (channels d) as (((dr & dg) & db) & da).
  destruct (channels s) as (((sr & sg) & sb) & sa).
  destruct (channels m) as (((mr & mg) & mb) & k). exact I.
Qed.

(** The padded icon, pixel by pixel: a transparent square canvas with the
    pasted pixels of the converted input at offset [(pad, pad)]. *)
Lemma add_padding_pixels (input : image) (padding_percent pad : Z) :
  padding_of (Z.of_nat (width input)) padding_percent = Some pad ->
  (0 <= Z.of_nat (width input) + 2 * pad)%Z ->
  let img := ensure_mode ModeRGBA input in
  let n := Z.to_nat (Z.of_nat (width input) + 2 * pad) in
  exists out,
    add_padding_to_icon input padding_percent = Some out /\
    wf out /\ mode out = ModeRGBA /\ width out = n /\ height out = n /\
    forall x y, x < n -> y < n ->
      getpixel out x y
      = Some (match getpixelZ img (Z.of_nat x - pad) (Z.of_nat y - pad) with
              | Some p => paste_pixel (RGBA 0 0 0 0) p p
              | None => RGBA 0 0 0 0
              end).
Proof.
  intros Hpad Hsize img n.
  assert (Hw : width img = width input).
  { unfold img, ensure_mode. destruct (mode_eqb (mode input) ModeRGBA); reflexivity. }
  unfold add_padding_to_icon. fold img. rewrite Hw, Hpad. cbn [bind].
  unfold Image_new.
  assert (Hneg : (Z.of_nat (width input) + 2 * pad <? 0)%Z = false)
    by (apply Z.ltb_ge; lia).
  rewrite Hneg. cbn [orb bind]. fold n.
  unfold paste. cbn [mode width height data].
  rewrite (ensure_mode_mode ModeRGBA input : mode img = ModeRGBA).
  rewrite !Nat.eqb_refl. cbn [mode_eqb andb].
  eexists. split; [reflexivity|].
  split; [|split; [reflexivity|split; [reflexivity|split; [reflexivity|]]]].
  - unfold wf. cbn [mode width height data]. split; [|split].
    + now rewrite length_imap_from, repeat_length.
    + rewrite Forall_forall. intros row' Hin.
      apply In_imap_from in Hin as (y & row & Hrow & ->).
      apply repeat_spec in Hrow as ->.
      now rewrite length_imap_from, repeat_length.
    + rewrite Forall_forall. intros row' Hin.
      apply In_imap_from in Hin as (y & row & Hrow & ->).
      rewrite Forall_forall. intros p' Hp.
      apply In_imap_from in Hp as (x & d & Hd & ->).
      apply repeat_spec in Hrow as ->. apply repeat_spec in Hd as ->.
      destruct (getpixelZ img (Z.of_nat x - pad) (Z.of_nat y - pad));
        [apply has_mode_paste_pixel|exact I].
  - intros x y Hx Hy. unfold getpixel. cbn [data].
    rewrite nth_error_imap_from, nth_error_repeat by assumption.
    cbn [option_map bind].
    rewrite nth_error_imap_from, nth_error_repeat by assumption.
    cbn [option_map Nat.add].
    destruct (getpixelZ img (Z.of_nat x - pad) (Z.of_nat y - pad)); reflexivity.
Qed.

Lemma all_from_sound (f : Z -> bool) (n : nat) (z k : Z) :
  all_from f z n = true -> (z <= k < z + Z.of_nat n)%Z -> f k = true.
Proof.
  revert z. induction n as [|n IH]; intros z Hall Hk; [lia|].
  cbn in Hall. apply andb_prop in Hall as (Hz & Hrest).
  destruct (Z.eq_dec k z) as [->|Hne]; [assumption|].
  apply (IH (Z.succ z)); [assumption|lia].
Qed.

Lemma padding_default_percent (s : Z) :
  (0 <= s < 4096)%Z -> padding_of s 15 = Some (s * 15 / 100)%Z.
Proof.
  intros Hs.
  assert (Hall : all_from (padding_is_floor 15) 0 4096 = true)
    by (vm_compute; reflexivity).
  pose proof (all_from_sound _ _ _ s Hall ltac:(lia)) as Hfloor.
  unfold padding_is_floor in Hfloor.
  destruct (padding_of s 15) as [pad|]; [|discriminate].
  apply Z.eqb_eq in Hfloor. now subst.
Qed.

(** The script's own call, at 15 percent, returns for every icon narrower
    than 4096 pixels. *)
Lemma add_padding_default_percent (input : image) :
  width input < 4096 ->
  exists out,
    add_padding_to_icon input 15 = Some out /\
    Z.of_nat (width out)
    = (Z.of_nat (width input) + 2 * (Z.of_nat (width input) * 15 / 100))%Z /\
    height out = width out.
Proof.
  intros Hw.
  pose proof (padding_default_percent (Z.of_nat (width input)) ltac:(lia)) as Hpad.
  destruct (add_padding_pixels input 15 _ Hpad)
    as (out & Hrun & _ & _ & Hwo & Hho & _).
  { Z.div_mod_to_equations. lia. }
  exists out. split; [exact Hrun|]. rewrite Hwo, Hho.
  split; [|reflexivity]. Z.div_mod_to_equations. lia.
Qed.

(** The padding as the code computes it. For a percentage whose double-precision product
    [s * (pct / 100)] truncates to [pad], the padding allocates a square
    canvas of side [s + 2 * pad], transparent wherever the original does not
    fall, and pastes the original at offset [(pad, pad)] under its own alpha:
    each channel [c] of a pixel of alpha [a], alpha included, becomes
    [DIV255 (c * a)], which keeps an opaque pixel, leaves the canvas
    transparent under a transparent one and scales the others.  [pad] is
    the floor of [s * pct / 100] for the script's 15 percent and every side
    below 4096. *)
Theorem padding_canvas_and_paste (input : image) (padding_percent pad : Z) :
  padding_of (Z.of_nat (width input)) padding_percent = Some pad ->
  (0 <= pad)%Z ->
  (exists out,
      add_padding_to_icon input padding_percent = Some out /\
      mode out = ModeRGBA /\
      Z.of_nat (width out) = (Z.of_nat (width input) + 2 * pad)%Z /\
      Z.of_nat (height out) = (Z.of_nat (width input) + 2 * pad)%Z /\
      forall x y, x < width out -> y < height out ->
        getpixel out x y
        = Some (match getpixelZ (ensure_mode ModeRGBA input)
                        (Z.of_nat x - pad) (Z.of_nat y - pad) with
                | Some p =>
                    let '(r, g, b, a) := channels p in
                    RGBA (DIV255 (r * a)) (DIV255 (g * a)) (DIV255 (b * a))
                         (DIV255 (a * a))
                | None => RGBA 0 0 0 0
                end)) /\
  (forall c, (0 <= c <= 255)%Z -> DIV255 (c * 255) = c) /\
  (forall c, DIV255 (c * 0) = 0%Z) /\
  (forall s, (0 <= s < 4096)%Z -> padding_of s 15 = Some (s * 15 / 100)%Z).
Proof.
  intros Hpad Hnonneg.
  split; [|split; [exact DIV255_opaque|split;
    [exact DIV255_transparent|exact padding_default_percent]]].
  destruct (add_padding_pixels input padding_percent pad Hpad ltac:(lia))
    as (out & Hrun & _ & Hm & Hw & Hh & Hpx).
  exists out. rewrite Hw, Hh.
  split; [assumption|]. split; [assumption|].
  split; [lia|]. split; [lia|].
  intros x y Hx Hy. rewrite Hpx by assumption. f_equal.
  destruct (getpixelZ _ _ _) as [p|]; [|reflexivity].
  apply paste_pixel_on_transparent.
Qed.

(** ** Padding, then cropping *)

Lemma getpixelZ_range (img : image) (x y : Z) (p : pixel) :
  wf img -> getpixelZ img x y = Some p ->
  (0 <= x < Z.of_nat (width img))%Z /\ (0 <= y < Z.of_nat (height img))%Z.
Proof.
  intros Hwf. unfold getpixelZ.
  destruct (Z.ltb_spec x 0); [discriminate|].
  destruct (Z.ltb_spec y 0); [discriminate|]. cbn.
  intros Hp. destruct (getpixel_range _ _ _ _ Hwf Hp). lia.
Qed.

(** C3, as the code has it. For a square icon of side [s] and a percentage
    whose product truncates to [pad], the padded icon is a square of side
    [s + 2 * pad]; the tolerance-0 crop of the padded icon has the bounds of
    the pasted region, hence the size of the original and its pasted
    pixels, provided each of the four outer edges of that region
    holds a pixel that the crop classifies as content against the top-left
    pixel of the padded icon. *)
Theorem pad_then_crop (input : image) (padding_percent pad : Z) :
  wf input -> height input = width input -> 0 < width input ->
  padding_of (Z.of_nat (width input)) padding_percent = Some pad ->
  (0 <= pad)%Z ->
  exists padded bg,
    add_padding_to_icon input padding_percent = Some padded /\
    Z.of_nat (width padded) = (Z.of_nat (width input) + 2 * pad)%Z /\
    Z.of_nat (height padded) = (Z.of_nat (width input) + 2 * pad)%Z /\
    getpixel padded 0 0 = Some bg /\
    let s := width input in
    let o := Z.to_nat pad in
    let fg := foreground (not_background bg 0) padded in
    ((exists x, x < s /\ fg (o + x) o) ->
     (exists x, x < s /\ fg (o + x) (o + s - 1)) ->
     (exists y, y < s /\ fg o (o + y)) ->
     (exists y, y < s /\ fg (o + s - 1) (o + y)) ->
     exists out,
       remove_border padded 0
       = Some (mkBox pad (pad + Z.of_nat s - 1) pad (pad + Z.of_nat s - 1), out) /\
       width out = s /\ height out = s /\
       forall i j, i < s -> j < s ->
         getpixel out i j = getpixel padded (o + i) (o + j)).
Proof.
  intros Hwf Hsq Hpos Hpad Hnonneg.
  destruct (add_padding_pixels input padding_percent pad Hpad ltac:(lia))
    as (padded & Hrun & Hwfp & Hm & Hw & Hh & Hpx).
  destruct (ensure_mode_wf ModeRGBA input Hwf) as (Hwf' & _ & Hw' & Hh').
  destruct (remove_border_pure padded 0 Hwfp) as (bg & Hbg & _ & Hc & Hcrop);
    [lia|lia|].
  rewrite (ensure_mode_same _ _ Hm) in Hbg, Hc, Hcrop.
  exists padded, bg.
  split; [assumption|]. split; [lia|]. split; [lia|]. split; [assumption|].
  intros s o fg Etop Ebottom Eleft Eright.
  set (c := content_tol bg 0) in *.
  pose proof (foreground_fgb _ c padded Hc) as fg_iff.
  assert (Hregion : forall x y, fgb c padded x y = true ->
                      o <= x < o + s /\ o <= y < o + s).
  { intros x y Hfg. destruct (fgb_range _ _ Hwfp _ _ Hfg) as (Hx & Hy).
    unfold fgb in Hfg. rewrite Hpx in Hfg by lia.
    destruct (getpixelZ _ _ _) as [q|] eqn:Hq.
    - apply getpixelZ_range in Hq; [|assumption]. subst s o. lia.
    - unfold c in Hfg. rewrite content_tol_transparent in Hfg by (cbn; lia).
      discriminate. }
  destruct Etop as (x1 & Hx1 & F1). destruct Ebottom as (x2 & Hx2 & F2).
  destruct Eleft as (y3 & Hy3 & F3). destruct Eright as (y4 & Hy4 & F4).
  apply fg_iff in F1, F2, F3, F4.
  destruct (bounds_cases c padded Hwfp)
    as [(Hno & _)|(t & b & l & r & Hbox & Hrows & Hcols & Ht & Hb & Hl & Hr & Hin)].
  { rewrite Hno in F1. discriminate. }
  apply row_fg_true in Ht as (xt & Hxt); [|assumption].
  apply row_fg_true in Hb as (xb & Hxb); [|assumption].
  apply col_fg_true in Hl as (yl & Hyl); [|assumption].
  apply col_fg_true in Hr as (yr & Hyr); [|assumption].
  apply Hregion in Hxt, Hxb, Hyl, Hyr.
  apply Hin in F1, F2, F3, F4.
  assert (t = o) by lia. assert (b = o + s - 1) by lia.
  assert (l = o) by lia. assert (r = o + s - 1) by lia. subst t b l r.
  destruct (crop_size padded _ _ _ _ Hrows Hcols) as (Hcw & Hch).
  rewrite Hcrop, Hbox.
  assert (Hpo : pad = Z.of_nat o) by (subst o; lia).
  clearbody o. rewrite Hpo.
  replace (Z.of_nat o + Z.of_nat s - 1)%Z with (Z.of_nat (o + s - 1)) by lia.
  eexists. split; [reflexivity|].
  split; [lia|]. split; [lia|].
  intros i j Hi Hj. apply getpixel_crop; lia.
Qed.

(** ** Default output paths *)

Lemma string_length_append (a b : string) :
  String.length (a ++ b) = String.length a + String.length b.
Proof. induction a as [|c a IH]; cbn; [reflexivity|now rewrite IH]. Qed.

Lemma prefix_length (old s : string) :
  String.prefix old s = true -> String.length old <= String.length s.
Proof.
  revert s. induction old as [|c old IH]; intros s; [cbn; lia|].
  destruct s as [|c' s]; cbn; [discriminate|].
  destruct (ascii_dec c c'); [|discriminate].
  intros Hp. apply IH in Hp. lia.
Qed.

Lemma replace_from_length (old new : string) (s : string) (skip : nat) :
  0 < String.length old <= String.length new ->
  skip <= String.length s ->
  String.length s <= String.length (replace_from old new skip s) + skip.
Proof.
  intros Hlen. revert skip.
  induction s as [|c rest IH]; intros skip Hskip;
    cbn [String.length replace_from] in *; [lia|].
  destruct skip as [|k].
  - destruct (String.prefix old (String c rest)) eqn:Hp.
    + apply prefix_length in Hp. cbn [String.length] in Hp.
      rewrite string_length_append.
      pose proof (IH (String.length old - 1) ltac:(lia)). lia.
    + cbn [String.length]. pose proof (IH 0 ltac:(lia)). lia.
  - pose proof (IH k ltac:(lia)). lia.
Qed.

Lemma str_replace_fixed_iff (old new s : string) :
  0 < String.length old < String.length new ->
  (str_replace s old new = s <-> occursb old s = false).
Proof.
  intros Hlen. unfold str_replace.
  assert (Hold : old <> EmptyString) by (intros ->; cbn in Hlen; lia).
  induction s as [|c rest IH]; cbn [replace_from occursb].
  - split; [|reflexivity]. intros _.
    destruct old; [congruence|reflexivity].
  - destruct (String.prefix old (String c rest)) eqn:Hp; cbn [orb].
    + split; [|discriminate]. intros Heq. exfalso.
      apply (f_equal String.length) in Heq.
      rewrite string_length_append in Heq. cbn [String.length] in Heq.
      apply prefix_length in Hp. cbn [String.length] in Hp.
      pose proof (replace_from_length old new rest (String.length old - 1)
                    ltac:(lia) ltac:(lia)). lia.
    + rewrite <- IH. split; [intros [= Heq]; exact Heq|intros ->; reflexivity].
Qed.

(** C9. Without an output path the tolerance-mode script writes over the
    input path.  The threshold-mode script replaces every [.png] of the
    input path by [_no_border.png]: the derived path differs from the input
    path exactly when [.png] occurs in it, and is the input path itself
    otherwise, as for [photo.jpg]. *)
Theorem default_output_paths (prog input_path : string) :
  remove_border_output_path [prog; input_path] = Some input_path /\
  remove_white_border_output_path [prog; input_path]
  = Some (str_replace input_path ".png" "_no_border.png") /\
  (str_replace input_path ".png" "_no_border.png" = input_path <->
   occursb ".png" input_path = false) /\
  remove_white_border_output_path [prog; "logo.png"%string]
  = Some "logo_no_border.png"%string /\
  remove_white_border_output_path [prog; "photo.jpg"%string]
  = Some "photo.jpg"%string.
Proof.
  repeat split; try reflexivity.
  - apply str_replace_fixed_iff. cbn. lia.
  - apply str_replace_fixed_iff. cbn. lia.
Qed.

(** ** The scripts on small images *)

Lemma crop_twice_witness :
  (exists box out,
      remove_white_border diagonal3 250 = Some (box, out) /\
      remove_white_border out 250 = Some (full_box out, out)) /\
  (exists out,
      remove_border diagonal3 30 = Some (mkBox 1 2 1 2, out) /\
      out = mkImage ModeRGBA 2 2 [[white; red]; [red; white]] /\
      remove_border out 30 = Some (full_box out, out)).
Proof.
  destruct (crop_twice diagonal3 30 250)
    as (Hthr & (bg & box & out & Hbg & Hrun & Hsame & _));
    [solve_wf | cbn; lia | cbn; lia |].
  split; [exact Hthr|].
  vm_compute in Hrun. injection Hrun as <- <-.
  vm_compute in Hbg. injection Hbg as <-.
  eexists. split; [reflexivity|]. split; [reflexivity|].
  apply (Hsame white); reflexivity.
Defined.

(** The tolerance-mode crop of [white; red; blue] is [red; blue]; cropped
    again, with red as the new reference, it is [blue]. *)
Lemma remove_border_twice_differs :
  exists box1 out1 box2 out2,
    remove_border strip3 30 = Some (box1, out1) /\
    remove_border out1 30 = Some (box2, out2) /\
    out1 = mkImage ModeRGBA 2 1 [[red; blue]] /\
    out2 = mkImage ModeRGBA 1 1 [[blue]] /\
    out2 <> out1.
Proof.
  eexists _, _, _, _.
  split; [reflexivity|]. split; [reflexivity|].
  split; [reflexivity|]. split; [reflexivity|]. discriminate.
Qed.

Lemma transparent_pixel_is_background_witness :
  (forall bg_r bg_g bg_b bg_a r g b a, (a < 10)%Z ->
     is_background (RGBA bg_r bg_g bg_b bg_a) 30 (RGBA r g b a) = Some true) /\
  (exists box out1 out2,
      remove_border clear_green 30 = Some (box, out1) /\
      remove_border clear_grey 30 = Some (box, out2)).
Proof.
  apply (transparent_pixel_is_background clear_green clear_grey 30);
    try solve [solve_wf | cbn; lia | reflexivity].
  - intros bg1 bg2 [= <-] [= <-]. reflexivity.
  - intros x y p1 p2 H1 H2.
    assert (Hr : x < 2 /\ y < 2)
      by (apply (getpixel_range clear_green x y p1); [solve_wf|exact H1]).
    destruct Hr as (Hx & Hy).
    destruct x as [|[|x]]; [| |lia]; (destruct y as [|[|y]]; [| |lia]);
      cbn in H1, H2; injection H1 as <-; injection H2 as <-;
      solve [left; reflexivity | right; cbn; lia].
Defined.

Lemma padding_canvas_and_paste_witness :
  (exists out,
      add_padding_to_icon half_clear1 100 = Some out /\
      mode out = ModeRGBA /\
      Z.of_nat (width out) = (Z.of_nat (width half_clear1) + 2 * 1)%Z /\
      Z.of_nat (height out) = (Z.of_nat (width half_clear1) + 2 * 1)%Z /\
      forall x y, x < width out -> y < height out ->
        getpixel out x y
        = Some (match getpixelZ (ensure_mode ModeRGBA half_clear1)
                        (Z.of_nat x - 1) (Z.of_nat y - 1) with
                | Some p =>
                    let '(r, g, b, a) := channels p in
                    RGBA (DIV255 (r * a)) (DIV255 (g * a)) (DIV255 (b * a))
                         (DIV255 (a * a))
                | None => RGBA 0 0 0 0
                end)) /\
  (forall c, (0 <= c <= 255)%Z -> DIV255 (c * 255) = c) /\
  (forall c, DIV255 (c * 0) = 0%Z) /\
  (forall s, (0 <= s < 4096)%Z -> padding_of s 15 = Some (s * 15 / 100)%Z).
Proof.
  apply (padding_canvas_and_paste half_clear1 100 1);
    [vm_compute; reflexivity | lia].
Defined.

(** C5, where the code leaves it.  The padded icon is meant to be the icon
    inside transparent padding, with the alpha of the original; but the
    paste under the icon's own alpha blends every band, alpha included: a
    half-transparent pixel [(200, 100, 50, 128)] is pasted as
    [(100, 50, 25, 64)], at the script's 15 percent as at 100 percent.  And
    at 29 percent of a side of 100 the product of doubles is just below 29,
    so the padding is 28 and the side 156, not the 158 of the exact
    floor. *)
Lemma padding_not_floor_nor_alpha :
  (exists out,
      add_padding_to_icon (solid ModeRGBA 100 100 white) 29 = Some out /\
      Z.of_nat (width out) = 156%Z /\
      (100 + 2 * (100 * 29 / 100))%Z = 158%Z) /\
  (exists out,
      add_padding_to_icon half_clear1 100 = Some out /\
      getpixel half_clear1 0 0 = Some (RGBA 200 100 50 128) /\
      getpixel out 1 1 = Some (RGBA 100 50 25 64)) /\
  (exists out,
      add_padding_to_icon half_clear1 15 = Some out /\
      width out = 1 /\
      getpixel out 0 0 = Some (RGBA 100 50 25 64)).
Proof.
  split; [|split; [|eexists; split; [vm_compute; reflexivity|split; reflexivity]]].
  - destruct (add_padding_pixels (solid ModeRGBA 100 100 white) 29 28)
      as (out & Hrun & _ & _ & Hw & _); [vm_compute; reflexivity|cbn; lia|].
    exists out. split; [exact Hrun|]. split; [rewrite Hw; reflexivity|reflexivity].
  - eexists. split; [vm_compute; reflexivity|]. split; reflexivity.
Qed.

Lemma pad_then_crop_witness :
  exists padded out,
    add_padding_to_icon orange2 50 = Some padded /\
    width padded = 4 /\ height padded = 4 /\
    remove_border padded 0 = Some (mkBox 1 2 1 2, out) /\
    width out = 2 /\ height out = 2.
Proof.
  destruct (pad_then_crop orange2 50 1)
    as (padded & bg & Hrun & Hw & Hh & Hbg & Hcrop);
    [solve_wf | reflexivity | cbn; lia | vm_compute; reflexivity | lia |].
  vm_compute in Hrun. injection Hrun as <-.
  injection Hbg as <-.
  destruct Hcrop as (out & Hout & Hwo & Hho & _).
  - exists 0. split; [cbn; lia|]. eexists. split; reflexivity.
  - exists 0. split; [cbn; lia|]. eexists. split; reflexivity.
  - exists 0. split; [cbn; lia|]. eexists. split; reflexivity.
  - exists 0. split; [cbn; lia|]. eexists. split; reflexivity.
  - eexists _, out. split; [vm_compute; reflexivity|].
    split; [reflexivity|]. split; [reflexivity|].
    split; [exact Hout|]. split; assumption.
Defined.

(** An icon with content in its top-left pixel only: padded by one pixel on
    each side and cropped at tolerance 0, it comes back as one pixel, not
    as the 2 by 2 original. *)
Lemma pad_then_crop_loses_transparent_edges :
  exists padded out,
    add_padding_to_icon corner_dot2 50 = Some padded /\
    width padded = 4 /\
    remove_border padded 0 = Some (mkBox 1 1 1 1, out) /\
    width out = 1 /\ height out = 1 /\
    width corner_dot2 = 2 /\ height corner_dot2 = 2.
Proof.
  eexists _, _. split; [vm_compute; reflexivity|].
  split; [reflexivity|]. split; [vm_compute; reflexivity|].
  repeat split.
Qed.

(** * Further properties of the scripts *)

(** ** A frame of background is removed exactly *)

Lemma bounds_framed (c : pixel -> bool) (img : image) (t b l r : nat) :
  wf img ->
  (forall x y, fgb c img x y = true -> l <= x <= r /\ t <= y <= b) ->
  (exists x, fgb c img x t = true) -> (exists x, fgb c img x b = true) ->
  (exists y, fgb c img l y = true) -> (exists y, fgb c img r y = true) ->
  bounds c img = nat_box t b l r /\ t <= b < height img /\ l <= r < width img.
Proof.
  intros Hwf Hall (xt & Ft) (xb & Fb) (yl & Fl) (yr & Fr).
  destruct (bounds_cases c img Hwf)
    as [(Hno & _)|(t' & b' & l' & r' & -> & Hrows & Hcols & Ht & Hb & Hl & Hr & Hin)].
  { rewrite Hno in Ft. discriminate. }
  apply row_fg_true in Ht as (x1 & H1); [|assumption].
  apply row_fg_true in Hb as (x2 & H2); [|assumption].
  apply col_fg_true in Hl as (y3 & H3); [|assumption].
  apply col_fg_true in Hr as (y4 & H4); [|assumption].
  apply Hall in H1, H2, H3, H4. apply Hin in Ft, Fb, Fl, Fr.
  assert (t' = t) by lia. assert (b' = b) by lia.
  assert (l' = l) by lia. assert (r' = r) by lia. subst.
  split; [reflexivity|]. split; assumption.
Qed.

Lemma framed_bounds (content : pixel -> option bool) (c : pixel -> bool)
    (img : image) (t b l r : nat) :
  wf img ->
  (forall x y p, getpixel img x y = Some p -> content p = Some (c p)) ->
  framed content img t b l r ->
  bounds c img = nat_box t b l r /\
  width (crop_to_box img (nat_box t b l r)) = r + 1 - l /\
  height (crop_to_box img (nat_box t b l r)) = b + 1 - t.
Proof.
  intros Hwf Hc (Hall & (xt & Ft) & (xb & Fb) & (yl & Fl) & (yr & Fr)).
  pose proof (foreground_fgb content c img Hc) as fg_iff.
  destruct (bounds_framed c img t b l r Hwf) as (Hbox & Hrows & Hcols).
  - intros x y Hfg. apply Hall. now apply fg_iff.
  - exists xt. now apply fg_iff.
  - exists xb. now apply fg_iff.
  - exists yl. now apply fg_iff.
  - exists yr. now apply fg_iff.
  - split; [assumption|]. now apply crop_size.
Qed.

(** X1. When every content pixel lies in a rectangle and each edge of the
    rectangle holds content, both scripts return exactly that rectangle:
    bounds [t], [b], [l], [r] and a crop of [r - l + 1] by [b - t + 1]
    pixels.  A border of uniform width [k] is the case [t = l = k],
    [b = H - 1 - k], [r = W - 1 - k]. *)
Theorem crop_removes_frame (input : image) (tolerance threshold : Z)
    (t b l r : nat) :
  wf input -> 0 < width input -> 0 < height input ->
  (framed (non_white threshold) (ensure_mode ModeRGB input) t b l r ->
   exists out,
     remove_white_border input threshold = Some (nat_box t b l r, out) /\
     width out = r + 1 - l /\ height out = b + 1 - t) /\
  (exists bg,
     getpixel (ensure_mode ModeRGBA input) 0 0 = Some bg /\
     (framed (not_background bg tolerance) (ensure_mode ModeRGBA input) t b l r ->
      exists out,
        remove_border input tolerance = Some (nat_box t b l r, out) /\
        width out = r + 1 - l /\ height out = b + 1 - t)).
Proof.
  intros Hwf Hw Hh. split.
  - intros Hframed.
    destruct (remove_white_border_pure input threshold Hwf) as (Hc & Hrun).
    destruct (ensure_mode_wf ModeRGB input Hwf) as (Hwf' & _).
    destruct (framed_bounds _ _ _ t b l r Hwf' Hc Hframed) as (Hbox & Hcw & Hch).
    rewrite Hrun, Hbox. eexists. split; [reflexivity|]. split; assumption.
  - destruct (remove_border_pure input tolerance Hwf Hw Hh)
      as (bg & Hbg & _ & Hc & Hrun).
    exists bg. split; [assumption|]. intros Hframed.
    destruct (ensure_mode_wf ModeRGBA input Hwf) as (Hwf' & _).
    destruct (framed_bounds _ _ _ t b l r Hwf' Hc Hframed) as (Hbox & Hcw & Hch).
    rewrite Hrun, Hbox. eexists. split; [reflexivity|]. split; assumption.
Qed.

Lemma crop_removes_frame_witness :
  exists out,
    remove_white_border framed4 250 = Some (nat_box 1 2 1 2, out) /\
    width out = 2 /\ height out = 2.
Proof.
  destruct (crop_removes_frame framed4 30 250 1 2 1 2) as (Hthr & _);
    [solve_wf | cbn; lia | cbn; lia |].
  apply Hthr. unfold framed. cbn zeta.
  split; [|repeat split; [exists 1|exists 1|exists 1|exists 1];
            eexists; split; reflexivity].
  intros x y (p & Hp & Hcontent).
  assert (Hr : x < 4 /\ y < 4)
    by (apply (getpixel_range framed4 x y p); [solve_wf|exact Hp]).
  destruct Hr as (Hx & Hy).
  destruct x as [|[|[|[|x]]]]; [| | | |lia];
    (destruct y as [|[|[|[|y]]]]; [| | | |lia]);
    cbn in Hp; injection Hp as <-; cbn in Hcontent;
    solve [discriminate | lia].
Defined.

(** ** What the saved image holds *)

Lemma convert_pixel_same (m : image_mode) (p : pixel) :
  has_mode m p -> convert_pixel m p = p.
Proof. destruct m, p; cbn; intros H; try reflexivity; destruct H. Qed.

Lemma getpixel_ensure_mode (m : image_mode) (input : image) (x y : nat) :
  wf input ->
  getpixel (ensure_mode m input) x y
  = option_map (convert_pixel m) (getpixel input x y).
Proof.
  intros Hwf. unfold ensure_mode.
  destruct (mode_eqb (mode input) m) eqn:Hm.
  - apply mode_eqb_eq in Hm.
    destruct (getpixel input x y) as [p|] eqn:Hp; [|reflexivity].
    cbn. rewrite convert_pixel_same; [reflexivity|].
    rewrite <- Hm. eapply getpixel_has_mode; eassumption.
  - unfold getpixel, convert. cbn [data]. rewrite nth_error_map.
    destruct (nth_error (data input) y) as [row|]; [|reflexivity].
    cbn. rewrite nth_error_map. reflexivity.
Qed.

Lemma crop_pixels (content : pixel -> option bool) (c : pixel -> bool)
    (m : image_mode) (input : image) :
  wf input ->
  let img := ensure_mode m input in
  let box := bounds c img in
  let out := crop_to_box img box in
  (forall x y p, getpixel img x y = Some p -> content p = Some (c p)) ->
  wf out /\ mode out = m /\
  (forall i j, i < width out -> j < height out ->
     getpixel out i j
     = option_map (convert_pixel m)
         (getpixel input (Z.to_nat (left box) + i) (Z.to_nat (top box) + j))) /\
  (forall x y p, getpixel input x y = Some p ->
     content (convert_pixel m p) = Some true ->
     Z.to_nat (left box) <= x /\ Z.to_nat (top box) <= y /\
     getpixel out (x - Z.to_nat (left box)) (y - Z.to_nat (top box))
     = Some (convert_pixel m p)).
Proof.
  intros Hwf img box out Hc.
  destruct (ensure_mode_wf m input Hwf) as (Hwf' & Hm' & _).
  fold img in Hwf', Hm'.
  destruct (bounds_crop_full c img Hwf') as (Hwfo & _). fold box out in Hwfo.
  pose proof (bounds_minimal_crop content c img Hwf' Hc)
    as ((Hcw & Hch & Hsub) & _ & Hin & _).
  fold box out in Hcw, Hch, Hsub, Hin.
  split; [assumption|]. split; [exact Hm'|]. split.
  - intros i j Hi Hj. rewrite Hsub by assumption.
    apply getpixel_ensure_mode. assumption.
  - intros x y p Hp Hcontent.
    assert (Hfg : foreground content img x y).
    { exists (convert_pixel m p). split; [|assumption].
      unfold img. rewrite getpixel_ensure_mode, Hp by assumption. reflexivity. }
    destruct (Hin _ _ Hfg) as (Hx & Hy).
    destruct Hfg as (q & Hq & _).
    pose proof (getpixel_range _ _ _ _ Hwf' Hq) as (Hxr & Hyr).
    assert (Hq' : getpixel img x y = Some (convert_pixel m p)).
    { unfold img. rewrite getpixel_ensure_mode, Hp by assumption. reflexivity. }
    split; [lia|]. split; [lia|].
    rewrite Hsub by lia. rewrite <- Hq'. f_equal; lia.
Qed.

(** X2. The image that each script saves holds the converted pixels of the
    input at the offset of the bounds: threshold mode saves RGB pixels, so
    the alpha of an RGBA input is dropped, and tolerance mode saves RGBA
    pixels, an RGB input getting alpha 255.  No content pixel is lost: each
    one is in the output, at its position shifted by [(left, top)]. *)
Theorem crop_output_pixels (input : image) (tolerance threshold : Z) :
  wf input -> 0 < width input -> 0 < height input ->
  (exists box out,
      remove_white_border input threshold = Some (box, out) /\
      wf out /\ mode out = ModeRGB /\
      (forall i j, i < width out -> j < height out ->
         getpixel out i j
         = option_map to_RGB
             (getpixel input (Z.to_nat (left box) + i) (Z.to_nat (top box) + j))) /\
      (forall x y p, getpixel input x y = Some p ->
         non_white threshold (to_RGB p) = Some true ->
         Z.to_nat (left box) <= x /\ Z.to_nat (top box) <= y /\
         getpixel out (x - Z.to_nat (left box)) (y - Z.to_nat (top box))
         = Some (to_RGB p))) /\
  (exists bg box out,
      getpixel input 0 0 = Some bg /\
      remove_border input tolerance = Some (box, out) /\
      wf out /\ mode out = ModeRGBA /\
      (forall i j, i < width out -> j < height out ->
         getpixel out i j
         = option_map to_RGBA
             (getpixel input (Z.to_nat (left box) + i) (Z.to_nat (top box) + j))) /\
      (forall x y p, getpixel input x y = Some p ->
         not_background (to_RGBA bg) tolerance (to_RGBA p) = Some true ->
         Z.to_nat (left box) <= x /\ Z.to_nat (top box) <= y /\
         getpixel out (x - Z.to_nat (left box)) (y - Z.to_nat (top box))
         = Some (to_RGBA p))).
Proof.
  intros Hwf Hw Hh. split.
  - destruct (remove_white_border_pure input threshold Hwf) as (Hc & Hrun).
    destruct (crop_pixels (non_white threshold) (content_thr threshold)
                ModeRGB input Hwf Hc) as (Hwfo & Hmo & Hpx & Hkeep).
    eexists _, _. split; [exact Hrun|].
    split; [assumption|]. split; [assumption|]. split; assumption.
  - destruct (remove_border_pure input tolerance Hwf Hw Hh)
      as (bg' & Hbg' & _ & Hc & Hrun).
    destruct (getpixel_defined input 0 0 Hwf Hw Hh) as (bg & Hbg & _).
    rewrite getpixel_ensure_mode, Hbg in Hbg' by assumption.
    cbn in Hbg'. injection Hbg' as <-.
    destruct (crop_pixels (not_background (to_RGBA bg) tolerance)
                (content_tol (to_RGBA bg) tolerance)
                ModeRGBA input Hwf Hc) as (Hwfo & Hmo & Hpx & Hkeep).
    exists bg. eexists _, _. split; [assumption|]. split; [exact Hrun|].
    split; [assumption|]. split; [assumption|]. split; assumption.
Qed.

Lemma crop_output_pixels_witness :
  exists box out,
    remove_white_border framed4 250 = Some (box, out) /\
    wf out /\ mode out = ModeRGB /\
    getpixel out 0 0 = Some (RGB 10 20 30).
Proof.
  destruct (crop_output_pixels framed4 30 250)
    as ((box & out & Hrun & Hwfo & Hmo & _ & Hkeep) & _);
    [solve_wf | cbn; lia | cbn; lia |].
  destruct (Hkeep 1 1 (RGB 10 20 30)) as (_ & _ & Hpx);
    [reflexivity | reflexivity |].
  vm_compute in Hrun. injection Hrun as <- <-.
  eexists _, _. split; [vm_compute; reflexivity|].
  split; [solve_wf|]. split; [reflexivity|reflexivity].
Defined.

(** ** The crop is tight *)

Lemma crop_edges (c : pixel -> bool) (img : image) :
  wf img ->
  (exists x y, fgb c img x y = true) ->
  let out := crop_to_box img (bounds c img) in
  (exists i, fgb c out i 0 = true) /\
  (exists i, fgb c out i (height out - 1) = true) /\
  (exists j, fgb c out 0 j = true) /\
  (exists j, fgb c out (width out - 1) j = true).
Proof.
  intros Hwf (x0 & y0 & F0) out. subst out.
  destruct (bounds_cases c img Hwf)
    as [(Hno & _)|(t & b & l & r & -> & Hrows & Hcols & Ht & Hb & Hl & Hr & Hin)].
  { rewrite Hno in F0. discriminate. }
  destruct (crop_size img t b l r Hrows Hcols) as (Hw' & Hh').
  rewrite Hw', Hh'.
  assert (Hfgb : forall i j, i < r + 1 - l -> j < b + 1 - t ->
                   fgb c (crop_to_box img (nat_box t b l r)) i j
                   = fgb c img (l + i) (t + j)).
  { intros i j Hi Hj. unfold fgb.
    rewrite getpixel_crop by assumption. reflexivity. }
  apply row_fg_true in Ht as (xt & Hxt); [|assumption].
  apply row_fg_true in Hb as (xb & Hxb); [|assumption].
  apply col_fg_true in Hl as (yl & Hyl); [|assumption].
  apply col_fg_true in Hr as (yr & Hyr); [|assumption].
  pose proof (Hin _ _ Hxt) as Rt. pose proof (Hin _ _ Hxb) as Rb.
  pose proof (Hin _ _ Hyl) as Rl. pose proof (Hin _ _ Hyr) as Rr.
  split; [|split; [|split]].
  - exists (xt - l). rewrite Hfgb by lia. rewrite <- Hxt. f_equal; lia.
  - exists (xb - l). rewrite Hfgb by lia. rewrite <- Hxb. f_equal; lia.
  - exists (yl - t). rewrite Hfgb by lia. rewrite <- Hyl. f_equal; lia.
  - exists (yr - t). rewrite Hfgb by lia. rewrite <- Hyr. f_equal; lia.
Qed.

Lemma crop_edges_foreground (content : pixel -> option bool)
    (c : pixel -> bool) (img : image) :
  wf img ->
  (forall p, has_mode (mode img) p -> content p = Some (c p)) ->
  (exists x y, foreground content img x y) ->
  let out := crop_to_box img (bounds c img) in
  (exists i, foreground content out i 0) /\
  (exists i, foreground content out i (height out - 1)) /\
  (exists j, foreground content out 0 j) /\
  (exists j, foreground content out (width out - 1) j).
Proof.
  intros Hwf Hmode (x0 & y0 & F0) out.
  assert (Hc : forall x y p, getpixel img x y = Some p -> content p = Some (c p)).
  { intros x y p Hp. apply Hmode. eapply getpixel_has_mode; eassumption. }
  destruct (bounds_crop_full c img Hwf) as (Hwfo & _). fold out in Hwfo.
  assert (Hco : forall x y p, getpixel out x y = Some p -> content p = Some (c p)).
  { intros x y p Hp. apply Hmode.
    apply (getpixel_has_mode out x y p Hwfo Hp). }
  pose proof (foreground_fgb content c img Hc) as fg_in.
  pose proof (foreground_fgb content c out Hco) as fg_out.
  destruct (crop_edges c img Hwf) as ((i1 & E1) & (i2 & E2) & (j3 & E3) & (j4 & E4)).
  { exists x0, y0. now apply fg_in. }
  fold out in E1, E2, E3, E4.
  split; [|split; [|split]].
  - exists i1. now apply fg_out.
  - exists i2. now apply fg_out.
  - exists j3. now apply fg_out.
  - exists j4. now apply fg_out.
Qed.

(** X3. When the image holds content, the first row, the last row, the
    first column and the last column of the crop each hold a pixel that the
    same test (same threshold, or same reference colour and tolerance)
    classifies as content: no edge of the output is pure background. *)
Theorem crop_edges_hold_content (input : image) (tolerance threshold : Z) :
  wf input -> 0 < width input -> 0 < height input ->
  (exists box out,
      remove_white_border input threshold = Some (box, out) /\
      let fg := foreground (non_white threshold) in
      ((exists x y, fg (ensure_mode ModeRGB input) x y) ->
       (exists i, fg out i 0) /\ (exists i, fg out i (height out - 1)) /\
       (exists j, fg out 0 j) /\ (exists j, fg out (width out - 1) j))) /\
  (exists bg box out,
      getpixel (ensure_mode ModeRGBA input) 0 0 = Some bg /\
      remove_border input tolerance = Some (box, out) /\
      let fg := foreground (not_background bg tolerance) in
      ((exists x y, fg (ensure_mode ModeRGBA input) x y) ->
       (exists i, fg out i 0) /\ (exists i, fg out i (height out - 1)) /\
       (exists j, fg out 0 j) /\ (exists j, fg out (width out - 1) j))).
Proof.
  intros Hwf Hw Hh. split.
  - destruct (remove_white_border_pure input threshold Hwf) as (_ & Hrun).
    destruct (ensure_mode_wf ModeRGB input Hwf) as (Hwf' & Hm' & _).
    eexists _, _. split; [exact Hrun|]. cbn zeta. intros Hsome.
    apply (crop_edges_foreground (non_white threshold) (content_thr threshold));
      try assumption.
    intros p Hp. apply non_white_pure. now rewrite <- Hm'.
  - destruct (remove_border_pure input tolerance Hwf Hw Hh)
      as (bg & Hbg & Hbgm & _ & Hrun).
    destruct (ensure_mode_wf ModeRGBA input Hwf) as (Hwf' & Hm' & _).
    exists bg. eexists _, _. split; [assumption|]. split; [exact Hrun|].
    cbn zeta. intros Hsome.
    apply (crop_edges_foreground (not_background bg tolerance)
             (content_tol bg tolerance)); try assumption.
    intros p Hp. apply not_background_pure; [assumption|]. now rewrite <- Hm'.
Qed.

Lemma crop_edges_hold_content_witness :
  exists box out,
    remove_white_border framed4 250 = Some (box, out) /\
    (exists i, foreground (non_white 250) out i 0) /\
    (exists j, foreground (non_white 250) out (width out - 1) j).
Proof.
  destruct (crop_edges_hold_content framed4 30 250)
    as ((box & out & Hrun & Hedges) & _); [solve_wf | cbn; lia | cbn; lia |].
  exists box, out. split; [exact Hrun|].
  destruct Hedges as (E1 & _ & _ & E4).
  - exists 1, 1. eexists. split; reflexivity.
  - split; assumption.
Defined.

(** ** A laxer sensitivity crops no less *)

Lemma bounds_monotone (c1 c2 : pixel -> bool) (img : image) :
  wf img ->
  (forall x y, fgb c2 img x y = true -> fgb c1 img x y = true) ->
  (exists x y, fgb c2 img x y = true) ->
  box_inside (bounds c2 img) (bounds c1 img).
Proof.
  intros Hwf Hsub (x0 & y0 & F0).
  destruct (bounds_cases c2 img Hwf)
    as [(Hno & _)|(t & b & l & r & -> & _ & _ & Ht & Hb & Hl & Hr & _)].
  { rewrite Hno in F0. discriminate. }
  destruct (bounds_cases c1 img Hwf)
    as [(Hno & _)|(t' & b' & l' & r' & -> & _ & _ & _ & _ & _ & _ & Hin)].
  { apply Hsub in F0. rewrite Hno in F0. discriminate. }
  apply row_fg_true in Ht as (xt & Hxt); [|assumption].
  apply row_fg_true in Hb as (xb & Hxb); [|assumption].
  apply col_fg_true in Hl as (yl & Hyl); [|assumption].
  apply col_fg_true in Hr as (yr & Hyr); [|assumption].
  apply Hsub, Hin in Hxt, Hxb, Hyl, Hyr.
  unfold box_inside, nat_box. cbn. lia.
Qed.

Lemma content_tol_monotone (bg_color : pixel) (tol1 tol2 : Z) (p : pixel) :
  (tol1 <= tol2)%Z ->
  content_tol bg_color tol2 p = true -> content_tol bg_color tol1 p = true.
Proof.
  intros Hle. unfold content_tol, within.
  destruct (rgb_of bg_color) as ((bg_r & bg_g) & bg_b).
  destruct (rgb_of p) as ((r & g) & b).
  destruct (alpha_of p <? 10)%Z; [discriminate|]. cbn.
  destruct (Z.leb_spec (Z.abs (r - bg_r)) tol1),
           (Z.leb_spec (Z.abs (g - bg_g)) tol1),
           (Z.leb_spec (Z.abs (b - bg_b)) tol1); cbn; try reflexivity.
  destruct (Z.leb_spec (Z.abs (r - bg_r)) tol2),
           (Z.leb_spec (Z.abs (g - bg_g)) tol2),
           (Z.leb_spec (Z.abs (b - bg_b)) tol2); cbn; try discriminate; lia.
Qed.

Lemma content_thr_monotone (th1 th2 : Z) (p : pixel) :
  (th1 <= th2)%Z ->
  content_thr th1 p = true -> content_thr th2 p = true.
Proof.
  intros Hle. unfold content_thr. destruct (rgb_of p) as ((r & g) & b).
  destruct (Z.ltb_spec r th1), (Z.ltb_spec g th1), (Z.ltb_spec b th1);
    cbn; try discriminate; intros _;
    destruct (Z.ltb_spec r th2), (Z.ltb_spec g th2), (Z.ltb_spec b th2);
    cbn; try reflexivity; lia.
Qed.

Lemma fgb_implies (c1 c2 : pixel -> bool) (img : image) :
  (forall p, c2 p = true -> c1 p = true) ->
  forall x y, fgb c2 img x y = true -> fgb c1 img x y = true.
Proof.
  intros Himp x y. unfold fgb. destruct (getpixel img x y); [apply Himp|easy].
Qed.

(** X4. The bounds shrink as the test gets laxer.  In tolerance mode, with
    [tol1 <= tol2], the bounds found at [tol2] lie inside the bounds found
    at [tol1], as long as some content is left at [tol2]; in threshold
    mode, with [th1 <= th2], the bounds found at [th1] lie inside the
    bounds found at [th2], as long as there is content at [th1]. *)
Theorem crop_bounds_monotone (input : image) (tol1 tol2 th1 th2 : Z) :
  wf input -> 0 < width input -> 0 < height input ->
  (tol1 <= tol2)%Z -> (th1 <= th2)%Z ->
  (exists bg box1 out1 box2 out2,
      getpixel (ensure_mode ModeRGBA input) 0 0 = Some bg /\
      remove_border input tol1 = Some (box1, out1) /\
      remove_border input tol2 = Some (box2, out2) /\
      ((exists x y, foreground (not_background bg tol2)
                      (ensure_mode ModeRGBA input) x y) ->
       box_inside box2 box1)) /\
  (exists box1 out1 box2 out2,
      remove_white_border input th1 = Some (box1, out1) /\
      remove_white_border input th2 = Some (box2, out2) /\
      ((exists x y, foreground (non_white th1)
                      (ensure_mode ModeRGB input) x y) ->
       box_inside box1 box2)).
Proof.
  intros Hwf Hw Hh Htol Hth. split.
  - destruct (remove_border_pure input tol1 Hwf Hw Hh)
      as (bg & Hbg & _ & _ & Hrun1).
    destruct (remove_border_pure input tol2 Hwf Hw Hh)
      as (bg' & Hbg' & _ & Hc2 & Hrun2).
    assert (bg' = bg) by congruence. subst bg'.
    destruct (ensure_mode_wf ModeRGBA input Hwf) as (Hwf' & _).
    exists bg. eexists _, _, _, _.
    split; [assumption|]. split; [exact Hrun1|]. split; [exact Hrun2|].
    intros (x & y & Hfg).
    apply bounds_monotone; [assumption| |].
    + apply fgb_implies. intros p. now apply content_tol_monotone.
    + exists x, y. now apply (foreground_fgb _ _ _ Hc2).
  - destruct (remove_white_border_pure input th1 Hwf) as (Hc1 & Hrun1).
    destruct (remove_white_border_pure input th2 Hwf) as (_ & Hrun2).
    destruct (ensure_mode_wf ModeRGB input Hwf) as (Hwf' & _).
    eexists _, _, _, _. split; [exact Hrun1|]. split; [exact Hrun2|].
    intros (x & y & Hfg).
    apply bounds_monotone; [assumption| |].
    + apply fgb_implies. intros p. now apply content_thr_monotone.
    + exists x, y. now apply (foreground_fgb _ _ _ Hc1).
Qed.

Lemma crop_bounds_monotone_witness :
  exists out1 out2,
    remove_white_border framed4 20 = Some (nat_box 1 2 1 2, out1) /\
    remove_white_border framed4 250 = Some (nat_box 1 2 1 2, out2) /\
    box_inside (nat_box 1 2 1 2) (nat_box 1 2 1 2).
Proof.
  destruct (crop_bounds_monotone framed4 0 30 20 250)
    as (_ & (box1 & out1 & box2 & out2 & Hrun1 & Hrun2 & Hin));
    [solve_wf | cbn; lia | cbn; lia | lia | lia |].
  vm_compute in Hrun1. injection Hrun1 as <- <-.
  vm_compute in Hrun2. injection Hrun2 as <- <-.
  eexists _, _. split; [vm_compute; reflexivity|].
  split; [vm_compute; reflexivity|].
  apply Hin. exists 1, 1. eexists. split; reflexivity.
Defined.

(** ** Sensitivities that crop nothing *)

Lemma bounds_all_content (c : pixel -> bool) (img : image) :
  wf img -> 0 < width img -> 0 < height img ->
  (forall x y p, getpixel img x y = Some p -> c p = true) ->
  bounds c img = full_box img.
Proof.
  intros Hwf Hw Hh Hall.
  assert (Hfg : forall x y, x < width img -> y < height img ->
                  fgb c img x y = true).
  { intros x y Hx Hy. unfold fgb.
    destruct (getpixel_defined img x y Hwf Hx Hy) as (p & Hp & _).
    rewrite Hp. eapply Hall; eassumption. }
  destruct (bounds_framed c img 0 (height img - 1) 0 (width img - 1) Hwf)
    as (-> & _).
  - intros x y F. apply fgb_range in F; [lia|assumption].
  - exists 0. apply Hfg; lia.
  - exists 0. apply Hfg; lia.
  - exists 0. apply Hfg; lia.
  - exists 0. apply Hfg; lia.
  - unfold nat_box, full_box. f_equal; lia.
Qed.

Lemma bounds_no_content (c : pixel -> bool) (img : image) :
  wf img ->
  (forall x y p, getpixel img x y = Some p -> c p = false) ->
  bounds c img = full_box img.
Proof.
  intros Hwf Hnone.
  destruct (bounds_cases c img Hwf)
    as [(_ & Hfull)|(t & b & l & r & _ & _ & _ & Ht & _)]; [assumption|].
  apply row_fg_true in Ht as (x & Hx); [|assumption].
  unfold fgb in Hx. destruct (getpixel img x t) as [p|] eqn:Hp; [|discriminate].
  rewrite (Hnone _ _ _ Hp) in Hx. discriminate.
Qed.

Lemma valid_pixel_convert (m : image_mode) (p : pixel) :
  valid_pixel p -> valid_pixel (convert_pixel m p).
Proof. destruct m, p; unfold valid_pixel; cbn; lia. Qed.

Lemma valid_image_ensure_mode (m : image_mode) (input : image) :
  wf input -> valid_image input -> valid_image (ensure_mode m input).
Proof.
  intros Hwf Hvalid x y q Hq.
  rewrite getpixel_ensure_mode in Hq by assumption.
  destruct (getpixel input x y) as [p|] eqn:Hp; [|discriminate].
  injection Hq as <-. apply valid_pixel_convert. eapply Hvalid; eassumption.
Qed.

(** X5. On an image of 8-bit channels some sensitivities trim nothing and
    return the whole (converted) image: a threshold of 0 or less, for which
    no pixel is content, and a threshold above 255, for which every pixel
    is; a tolerance of 255 or more, for which no pixel is content; and a
    negative tolerance on an image without pixels of alpha below 10, for
    which every pixel is content. *)
Theorem sensitivity_that_crops_nothing (input : image) (tolerance threshold : Z) :
  wf input -> 0 < width input -> 0 < height input -> valid_image input ->
  ((threshold <= 0 \/ 255 < threshold)%Z ->
   remove_white_border input threshold
   = Some (full_box input, ensure_mode ModeRGB input)) /\
  ((255 <= tolerance)%Z ->
   remove_border input tolerance
   = Some (full_box input, ensure_mode ModeRGBA input)) /\
  ((tolerance < 0)%Z -> alpha_at_least 10 input ->
   remove_border input tolerance
   = Some (full_box input, ensure_mode ModeRGBA input)).
Proof.
  intros Hwf Hw Hh Hvalid.
  assert (Hfull : forall m, full_box (ensure_mode m input) = full_box input).
  { intros m. destruct (ensure_mode_wf m input Hwf) as (_ & _ & Hw' & Hh').
    unfold full_box. now rewrite Hw', Hh'. }
  split; [|split].
  - intros Hth.
    destruct (remove_white_border_pure input threshold Hwf) as (_ & Hrun).
    destruct (ensure_mode_wf ModeRGB input Hwf) as (Hwf' & _ & Hw' & Hh').
    pose proof (valid_image_ensure_mode ModeRGB input Hwf Hvalid) as Hvalid'.
    assert (Hbox : bounds (content_thr threshold) (ensure_mode ModeRGB input)
                   = full_box (ensure_mode ModeRGB input)).
    { destruct Hth as [Hlow|Hhigh].
      - apply bounds_no_content; [assumption|]. intros x y p Hp.
        apply Hvalid' in Hp. unfold valid_pixel, content_thr in *.
        destruct p; cbn in *;
          repeat match goal with
                 | |- context [(?a <? ?b)%Z] => destruct (Z.ltb_spec a b)
                 end; cbn; try reflexivity; lia.
      - apply bounds_all_content; try assumption; try lia. intros x y p Hp.
        apply Hvalid' in Hp. unfold valid_pixel, content_thr in *.
        destruct p; cbn in *;
          repeat match goal with
                 | |- context [(?a <? ?b)%Z] => destruct (Z.ltb_spec a b)
                 end; cbn; try reflexivity; lia. }
    rewrite Hrun, Hbox, crop_full, Hfull by assumption. reflexivity.
  - intros Htol.
    destruct (remove_border_pure input tolerance Hwf Hw Hh)
      as (bg & Hbg & _ & _ & Hrun).
    destruct (ensure_mode_wf ModeRGBA input Hwf) as (Hwf' & _ & Hw' & Hh').
    pose proof (valid_image_ensure_mode ModeRGBA input Hwf Hvalid) as Hvalid'.
    pose proof (Hvalid' _ _ _ Hbg) as Hvbg.
    assert (Hbox : bounds (content_tol bg tolerance) (ensure_mode ModeRGBA input)
                   = full_box (ensure_mode ModeRGBA input)).
    { apply bounds_no_content; [assumption|]. intros x y p Hp.
      apply Hvalid' in Hp. unfold valid_pixel, content_tol, within in *.
      destruct p, bg; cbn in *;
        repeat match goal with
               | |- context [(?a <=? ?b)%Z] => destruct (Z.leb_spec a b)
               end; cbn; try reflexivity;
        try (destruct (_ <? 10)%Z; reflexivity); lia. }
    rewrite Hrun, Hbox, crop_full, Hfull by assumption. reflexivity.
  - intros Htol Halpha.
    destruct (remove_border_pure input tolerance Hwf Hw Hh)
      as (bg & Hbg & _ & _ & Hrun).
    destruct (ensure_mode_wf ModeRGBA input Hwf) as (Hwf' & Hm' & Hw' & Hh').
    assert (Hbox : bounds (content_tol bg tolerance) (ensure_mode ModeRGBA input)
                   = full_box (ensure_mode ModeRGBA input)).
    { apply bounds_all_content; try assumption; try lia. intros x y q Hq.
      rewrite getpixel_ensure_mode in Hq by assumption.
      destruct (getpixel input x y) as [p|] eqn:Hp; [|discriminate].
      injection Hq as <-.
      pose proof (Halpha _ _ _ Hp) as Ha.
      unfold content_tol, within.
      destruct (rgb_of bg) as ((bg_r & bg_g) & bg_b).
      destruct p as [r g b|r g b a]; cbn in Ha |- *.
      + destruct (Z.leb_spec (Z.abs (r - bg_r)) tolerance); [lia|reflexivity].
      + apply Z.ltb_ge in Ha. rewrite Ha. cbn.
        destruct (Z.leb_spec (Z.abs (r - bg_r)) tolerance); [lia|reflexivity]. }
    rewrite Hrun, Hbox, crop_full, Hfull by assumption. reflexivity.
Qed.

Lemma valid_image_framed4 : valid_image framed4.
Proof.
  intros x y p Hp.
  assert (Hr : x < 4 /\ y < 4)
    by (apply (getpixel_range framed4 x y p); [solve_wf|exact Hp]).
  destruct Hr as (Hx & Hy).
  destruct x as [|[|[|[|x]]]]; [| | | |lia];
    (destruct y as [|[|[|[|y]]]]; [| | | |lia]);
    cbn in Hp; injection Hp as <-; unfold valid_pixel; cbn; lia.
Qed.

Lemma sensitivity_that_crops_nothing_witness :
  remove_white_border framed4 0 = Some (full_box framed4, framed4) /\
  remove_white_border framed4 256 = Some (full_box framed4, framed4) /\
  remove_border framed4 255
  = Some (full_box framed4, ensure_mode ModeRGBA framed4) /\
  remove_border framed4 (-1)
  = Some (full_box framed4, ensure_mode ModeRGBA framed4).
Proof.
  assert (Halpha : alpha_at_least 10 framed4).
  { intros x y p Hp.
    pose proof (getpixel_has_mode framed4 x y p ltac:(solve_wf) Hp) as Hm.
    destruct p; [cbn; lia|destruct Hm]. }
  assert (Hwf : wf framed4) by solve_wf.
  assert (Hw : 0 < width framed4) by (cbn; lia).
  assert (Hh : 0 < height framed4) by (cbn; lia).
  destruct (sensitivity_that_crops_nothing framed4 255 0 Hwf Hw Hh
              valid_image_framed4) as (Hlow & Hlax & _).
  destruct (sensitivity_that_crops_nothing framed4 (-1) 256 Hwf Hw Hh
              valid_image_framed4) as (Hhigh & _ & Hstrict).
  split; [apply Hlow; lia|]. split; [apply Hhigh; lia|].
  split; [apply Hlax; lia|]. apply Hstrict; [lia|exact Halpha].
Defined.

(** ** Padding an opaque icon and cropping it back *)

Lemma rows_ext (w h : nat) (rows1 rows2 : list (list pixel)) :
  length rows1 = h -> length rows2 = h ->
  Forall (fun row => length row = w) rows1 ->
  Forall (fun row => length row = w) rows2 ->
  (forall x y, x < w -> y < h ->
     (row <- nth_error rows1 y ;; nth_error row x)
     = (row <- nth_error rows2 y ;; nth_error row x)) ->
  rows1 = rows2.
Proof.
  intros H1 H2 W1 W2 Heq. apply nth_error_ext. intros y.
  destruct (nth_error rows1 y) as [r1|] eqn:E1.
  - assert (Hy : y < h) by (rewrite <- H1; apply nth_error_Some; congruence).
    destruct (nth_error rows2 y) as [r2|] eqn:E2.
    2:{ apply nth_error_None in E2. lia. }
    f_equal. rewrite Forall_forall in W1, W2.
    pose proof (W1 _ (nth_error_In _ _ E1)) as L1.
    pose proof (W2 _ (nth_error_In _ _ E2)) as L2.
    apply nth_error_ext. intros x.
    destruct (lt_dec x w) as [Hx|Hx].
    + specialize (Heq x y Hx Hy). rewrite E1, E2 in Heq. exact Heq.
    + rewrite (proj2 (nth_error_None r1 x)), (proj2 (nth_error_None r2 x)) by lia.
      reflexivity.
  - apply nth_error_None in E1. symmetry. apply nth_error_None. lia.
Qed.

Lemma image_ext (a b : image) :
  wf a -> wf b -> mode a = mode b ->
  width a = width b -> height a = height b ->
  (forall x y, x < width a -> y < height a -> getpixel a x y = getpixel b x y) ->
  a = b.
Proof.
  intros (Ha & Wa & _) (Hb & Wb & _) Hm Hw Hh Heq.
  destruct a as [ma wa ha da], b as [mb wb hb db].
  unfold getpixel in Heq. cbn [mode width height data] in *.
  subst ma wa ha. rewrite Hh in Heq.
  f_equal; [exact Hh|]. apply (rows_ext wb hb); assumption.
Qed.

Lemma paste_pixel_opaque (p : pixel) :
  has_mode ModeRGBA p -> valid_pixel p -> alpha_of p = 255%Z ->
  paste_pixel (RGBA 0 0 0 0) p p = p.
Proof.
  destruct p as [|r g b a]; [intros []|]. intros _ Hv Ha.
  cbn in Ha. subst a. rewrite paste_pixel_on_transparent. cbn [channels].
  unfold valid_pixel in Hv. cbn [channels] in Hv.
  rewrite !DIV255_opaque by lia. reflexivity.
Qed.

Lemma content_tol_opaque_non_black (p : pixel) :
  alpha_of p = 255%Z -> non_black p ->
  content_tol (RGBA 0 0 0 0) 0 p = true.
Proof.
  intros Ha Hnb. unfold content_tol, within, non_black in *. cbn [rgb_of].
  destruct (rgb_of p) as ((r & g) & b). rewrite Ha. cbn.
  destruct (Z.leb_spec (Z.abs (r - 0)) 0), (Z.leb_spec (Z.abs (g - 0)) 0),
    (Z.leb_spec (Z.abs (b - 0)) 0); cbn; try reflexivity.
  exfalso. apply Hnb. f_equal; [f_equal|]; lia.
Qed.

Lemma getpixelZ_of_nat (img : image) (x y : nat) :
  getpixelZ img (Z.of_nat x) (Z.of_nat y) = getpixel img x y.
Proof.
  unfold getpixelZ.
  destruct (Z.ltb_spec (Z.of_nat x) 0); [lia|].
  destruct (Z.ltb_spec (Z.of_nat y) 0); [lia|].
  cbn. now rewrite !Nat2Z.id.
Qed.

(** X6. Padding, then the tolerance-0 crop, gives back an opaque icon pixel
    for pixel.  For a square icon of 8-bit channels whose pixels are all
    opaque and whose four outer edges each hold a pixel that is not black,
    padded by at least one pixel, the crop of the padded icon returns the
    bounds of the pasted region and the icon itself (in RGBA). *)
Theorem pad_then_crop_returns_opaque_icon
    (input : image) (padding_percent pad : Z) :
  wf input -> height input = width input -> 0 < width input ->
  padding_of (Z.of_nat (width input)) padding_percent = Some pad ->
  (1 <= pad)%Z ->
  valid_image input -> alpha_at_least 255 input ->
  edges_hold non_black input ->
  exists padded,
    add_padding_to_icon input padding_percent = Some padded /\
    remove_border padded 0
    = Some (mkBox pad (pad + Z.of_nat (width input) - 1)
                  pad (pad + Z.of_nat (width input) - 1),
            ensure_mode ModeRGBA input).
Proof.
  intros Hwf Hsq Hpos Hpad Hone Hvalid Hopaque Hedges.
  destruct (add_padding_pixels input padding_percent pad Hpad ltac:(lia))
    as (padded & Hrun & Hwfp & Hm & Hw & Hh & Hpx).
  destruct (ensure_mode_wf ModeRGBA input Hwf) as (Hwf' & Hm' & Hw' & Hh').
  set (img := ensure_mode ModeRGBA input) in *.
  set (s := width input) in *.
  set (o := Z.to_nat pad).
  assert (Hpo : pad = Z.of_nat o) by (subst o; lia).
  assert (Ho : 1 <= o) by lia.
  assert (Hn : width padded = s + 2 * o /\ height padded = s + 2 * o) by lia.
  destruct Hn as (Hwn & Hhn).
  (* the pixels of the converted icon *)
  assert (Himg : forall x y q, getpixel img x y = Some q ->
            exists p, getpixel input x y = Some p /\ q = to_RGBA p /\
                      has_mode ModeRGBA q /\ valid_pixel q /\
                      alpha_of q = 255%Z).
  { intros x y q Hq. unfold img in Hq.
    rewrite getpixel_ensure_mode in Hq by assumption.
    destruct (getpixel input x y) as [p|] eqn:Hp; [|discriminate].
    injection Hq as <-. exists p. split; [reflexivity|]. split; [reflexivity|].
    pose proof (Hvalid _ _ _ Hp) as Hv. pose proof (Hopaque _ _ _ Hp) as Ha.
    destruct p; unfold valid_pixel in *; cbn in *;
      (split; [exact I|]); (split; [lia|]); lia. }
  (* the pasted region holds the icon *)
  assert (Hregion : forall x y, x < s -> y < s ->
            getpixel padded (o + x) (o + y) = getpixel img x y).
  { intros x y Hx Hy. rewrite Hpx by lia.
    replace (Z.of_nat (o + x) - pad)%Z with (Z.of_nat x) by lia.
    replace (Z.of_nat (o + y) - pad)%Z with (Z.of_nat y) by lia.
    rewrite getpixelZ_of_nat.
    destruct (getpixel_defined img x y Hwf') as (q & Hq & _); [lia|lia|].
    rewrite Hq. f_equal.
    destruct (Himg _ _ _ Hq) as (_ & _ & _ & Hmq & Hvq & Haq).
    now apply paste_pixel_opaque. }
  (* the reference is the transparent canvas *)
  assert (Hcorner : getpixel padded 0 0 = Some (RGBA 0 0 0 0)).
  { rewrite Hpx by lia. unfold getpixelZ.
    destruct (Z.ltb_spec (Z.of_nat 0 - pad) 0); [reflexivity|lia]. }
  destruct (remove_border_pure padded 0 Hwfp) as (bg & Hbg & _ & _ & Hcrop);
    [lia|lia|].
  rewrite (ensure_mode_same _ _ Hm) in Hbg, Hcrop.
  assert (bg = RGBA 0 0 0 0) by congruence. subst bg.
  set (c := content_tol (RGBA 0 0 0 0) 0) in *.
  assert (Hinside : forall x y, fgb c padded x y = true ->
                      o <= x <= o + s - 1 /\ o <= y <= o + s - 1).
  { intros x y Hfg. destruct (fgb_range _ _ Hwfp _ _ Hfg) as (Hx & Hy).
    unfold fgb in Hfg. rewrite Hpx in Hfg by lia.
    destruct (getpixelZ _ _ _) as [q|] eqn:Hq.
    - apply getpixelZ_range in Hq; [|assumption]. fold s in Hw'. lia.
    - unfold c in Hfg. rewrite content_tol_transparent in Hfg by (cbn; lia).
      discriminate. }
  assert (Hcontent : forall x y p, x < s -> y < s ->
            getpixel input x y = Some p -> non_black p ->
            fgb c padded (o + x) (o + y) = true).
  { intros x y p Hx Hy Hp Hnb. unfold fgb. rewrite Hregion by assumption.
    unfold img. rewrite getpixel_ensure_mode, Hp by assumption. cbn.
    apply content_tol_opaque_non_black.
    - pose proof (Hvalid _ _ _ Hp) as Hv. pose proof (Hopaque _ _ _ Hp) as Ha.
      destruct p; unfold valid_pixel in *; cbn in *; lia.
    - unfold non_black in *. destruct p; exact Hnb. }
  destruct Hedges as ((x1 & p1 & E1 & N1) & (x2 & p2 & E2 & N2)
                      & (y3 & p3 & E3 & N3) & (y4 & p4 & E4 & N4)).
  pose proof (getpixel_range _ _ _ _ Hwf E1) as (R1 & _).
  pose proof (getpixel_range _ _ _ _ Hwf E2) as (R2 & _).
  pose proof (getpixel_range _ _ _ _ Hwf E3) as (_ & R3).
  pose proof (getpixel_range _ _ _ _ Hwf E4) as (_ & R4).
  fold s in R1, R2. rewrite Hsq in R3, R4, E2. fold s in R3, R4, E2, E4.
  destruct (bounds_framed c padded o (o + s - 1) o (o + s - 1) Hwfp Hinside)
    as (Hbox & Hrows & Hcols).
  - exists (o + x1). replace o with (o + 0) at 2 by lia.
    apply (Hcontent x1 0 p1); [lia|lia|assumption|assumption].
  - exists (o + x2). replace (o + s - 1) with (o + (s - 1)) by lia.
    apply (Hcontent x2 (s - 1) p2); [lia|lia|assumption|assumption].
  - exists (o + y3). replace o with (o + 0) at 1 by lia.
    apply (Hcontent 0 y3 p3); [lia|lia|assumption|assumption].
  - exists (o + y4). replace (o + s - 1) with (o + (s - 1)) by lia.
    apply (Hcontent (s - 1) y4 p4); [lia|lia|assumption|assumption].
  - exists padded. split; [assumption|].
    rewrite Hcrop, Hbox.
    destruct (crop_size padded _ _ _ _ Hrows Hcols) as (Hcw & Hch).
    pose proof (wf_crop padded Hwfp _ _ _ _ Hrows Hcols) as Hwfo.
    f_equal. f_equal.
    + unfold nat_box. f_equal; lia.
    + apply image_ext; try assumption.
      * now rewrite Hm'.
      * rewrite Hcw, Hw'. fold s. lia.
      * rewrite Hch, Hh', Hsq. fold s. lia.
      * intros i j Hi Hj. rewrite Hcw in Hi. rewrite Hch in Hj.
        rewrite getpixel_crop by lia. apply Hregion; lia.
Qed.

Lemma getpixel_solid (m : image_mode) (w h : nat) (p q : pixel) (x y : nat) :
  getpixel (solid m w h p) x y = Some q -> q = p.
Proof.
  unfold getpixel, solid. cbn [data]. intros Hq.
  destruct (nth_error (repeat (repeat p w) h) y) as [row|] eqn:Hrow;
    [|discriminate].
  apply nth_error_In, repeat_spec in Hrow. subst row. cbn in Hq.
  apply nth_error_In, repeat_spec in Hq. exact Hq.
Qed.

Lemma pad_then_crop_returns_opaque_icon_witness :
  exists padded,
    add_padding_to_icon orange2 50 = Some padded /\
    remove_border padded 0
    = Some (mkBox 1 2 1 2, ensure_mode ModeRGBA orange2).
Proof.
  apply (pad_then_crop_returns_opaque_icon orange2 50 1).
  - solve_wf.
  - reflexivity.
  - cbn; lia.
  - vm_compute; reflexivity.
  - lia.
  - intros x y p Hp. apply getpixel_solid in Hp. subst p.
    unfold valid_pixel. cbn. lia.
  - intros x y p Hp. apply getpixel_solid in Hp. subst p. cbn. lia.
  - unfold edges_hold, non_black. cbn zeta.
    repeat split; exists 0; eexists; (split; [reflexivity|discriminate]).
Defined.

(** ** Icons that are not square *)

Lemma getpixel_below (img : image) (x y : nat) :
  wf img -> height img <= y -> getpixel img x y = None.
Proof.
  intros Hwf Hy. destruct (getpixel img x y) as [p|] eqn:Hp; [|reflexivity].
  apply getpixel_range in Hp; [lia|assumption].
Qed.

(** X7. The padded canvas is a square whose side comes from the width of
    the icon alone.  A pixel of the icon at row [y] is pasted when
    [y < width + pad]; the rows of a taller icon from [width + pad] on fall
    outside the canvas and are lost. *)
Theorem padding_side_from_width_only (input : image) (padding_percent pad : Z) :
  wf input ->
  padding_of (Z.of_nat (width input)) padding_percent = Some pad ->
  (0 <= pad)%Z ->
  exists out,
    add_padding_to_icon input padding_percent = Some out /\
    height out = width out /\
    width out = width input + 2 * Z.to_nat pad /\
    forall x y p, getpixel (ensure_mode ModeRGBA input) x y = Some p ->
      (y < width input + Z.to_nat pad ->
       getpixel out (Z.to_nat pad + x) (Z.to_nat pad + y)
       = Some (paste_pixel (RGBA 0 0 0 0) p p)) /\
      (width input + Z.to_nat pad <= y ->
       getpixel out (Z.to_nat pad + x) (Z.to_nat pad + y) = None).
Proof.
  intros Hwf Hpad Hnonneg.
  destruct (add_padding_pixels input padding_percent pad Hpad ltac:(lia))
    as (out & Hrun & Hwfo & _ & Hw & Hh & Hpx).
  destruct (ensure_mode_wf ModeRGBA input Hwf) as (Hwf' & _ & Hw' & _).
  exists out. split; [assumption|]. split; [congruence|]. split; [lia|].
  intros x y p Hp.
  pose proof (getpixel_range _ _ _ _ Hwf' Hp) as (Hx & _).
  split.
  - intros Hy. rewrite Hpx by lia.
    replace (Z.of_nat (Z.to_nat pad + x) - pad)%Z with (Z.of_nat x) by lia.
    replace (Z.of_nat (Z.to_nat pad + y) - pad)%Z with (Z.of_nat y) by lia.
    now rewrite getpixelZ_of_nat, Hp.
  - intros Hy. apply getpixel_below; [assumption|lia].
Qed.

Lemma padding_side_from_width_only_witness :
  exists out,
    add_padding_to_icon tall24 50 = Some out /\
    width out = 4 /\ height out = 4 /\
    getpixel out 1 3 = Some red /\
    getpixel tall24 0 3 = Some red /\
    getpixel out 1 4 = None.
Proof.
  destruct (padding_side_from_width_only tall24 50 1)
    as (out & Hrun & Hh & Hw & Hrows);
    [solve_wf | vm_compute; reflexivity | lia |].
  destruct (Hrows 0 2 red eq_refl) as (Hkept & _).
  destruct (Hrows 0 3 red eq_refl) as (_ & Hlost).
  exists out. split; [exact Hrun|]. split; [exact Hw|].
  split; [rewrite Hh; exact Hw|].
  split; [apply Hkept; cbn; lia|]. split; [reflexivity|].
  apply Hlost. cbn. lia.
Defined.

(** ** The default output path of a [.png] input *)

Lemma prefix_png_append (c : ascii) (rest : string) :
  String.prefix ".png" (String c rest) = false ->
  String.prefix ".png" (String c rest ++ ".png") = false.
Proof.
  cbn [String.prefix String.append].
  destruct (ascii_dec "." c) as [_|]; [|reflexivity].
  destruct rest as [|c2 rest]; [reflexivity|].
  cbn [String.prefix String.append].
  destruct (ascii_dec "p" c2) as [_|]; [|reflexivity].
  destruct rest as [|c3 rest]; [reflexivity|].
  cbn [String.prefix String.append].
  destruct (ascii_dec "n" c3) as [_|]; [|reflexivity].
  destruct rest as [|c4 rest]; [reflexivity|].
  cbn [String.prefix String.append].
  destruct (ascii_dec "g" c4) as [_|]; [|reflexivity].
  destruct rest; cbn [String.prefix]; intros Habs; discriminate Habs.
Qed.

Lemma str_replace_png_suffix (stem : string) :
  occursb ".png" stem = false ->
  str_replace (stem ++ ".png") ".png" "_no_border.png"
  = (stem ++ "_no_border.png")%string.
Proof.
  unfold str_replace.
  induction stem as [|c rest IH]; [reflexivity|].
  cbn [occursb]. intros Hocc. apply orb_false_elim in Hocc as (Hp & Hrest).
  apply prefix_png_append in Hp.
  change ((String c rest ++ ".png")%string)
    with (String c (rest ++ ".png")) in *.
  cbn [replace_from]. rewrite Hp. cbn [append]. f_equal. now apply IH.
Qed.

(** X8. For an input path [stem.png] in whose stem [.png] does not occur,
    the threshold-mode script without an output path writes to
    [stem_no_border.png]. *)
Theorem default_path_inserts_suffix (prog stem : string) :
  occursb ".png" stem = false ->
  remove_white_border_output_path [prog; (stem ++ ".png")%string]
  = Some (stem ++ "_no_border.png")%string.
Proof.
  intros Hocc. unfold remove_white_border_output_path. cbn.
  now rewrite str_replace_png_suffix.
Qed.

Lemma default_path_inserts_suffix_witness :
  remove_white_border_output_path
    ["remove_white_border.py"; ("assets/images/logo" ++ ".png")]%string
  = Some ("assets/images/logo" ++ "_no_border.png")%string.
Proof.
  apply (default_path_inserts_suffix "remove_white_border.py"
           "assets/images/logo").
  reflexivity.
Defined.

Lemma add_padding_default_percent_witness :
  exists out,
    add_padding_to_icon orange2 15 = Some out /\
    Z.of_nat (width out)
    = (Z.of_nat (width orange2) + 2 * (Z.of_nat (width orange2) * 15 / 100))%Z /\
    height out = width out.
Proof. apply (add_padding_default_percent orange2). cbn. lia. Defined.

(** ** Tolerance mode scans RGBA pixels *)

Lemma has_mode_RGBA_inv (p : pixel) :
  has_mode ModeRGBA p -> exists r g b a, p = RGBA r g b a.
Proof. destruct p as [|r g b a]; [intros []|]. intros _. now exists r, g, b, a. Qed.

(** C10. Tolerance mode converts to RGBA before it samples and scans: the
    image it scans holds, at each position, the RGBA conversion of the
    input's pixel (an RGB pixel gets alpha 255), so the reference and every
    scanned and saved pixel is a 4-tuple, and the bounds are those of the
    scan of that image against the converted top-left pixel.  A pixel is
    background when its alpha is below 10, and otherwise exactly when its
    three colour channels are within the tolerance of the reference's; the
    reference's alpha is never compared, so a pixel of alpha at least 10
    and colour within tolerance is background whatever the two alphas
    are. *)
Theorem tolerance_classification
    (input : image) (tolerance bg_r bg_g bg_b bg_a r g b a : Z) :
  wf input -> 0 < width input -> 0 < height input ->
  (let img := ensure_mode ModeRGBA input in
   (forall x y, getpixel img x y = option_map to_RGBA (getpixel input x y)) /\
   (forall x y p, getpixel img x y = Some p ->
      exists pr pg pb pa, p = RGBA pr pg pb pa) /\
   exists bg0 box out,
     getpixel input 0 0 = Some bg0 /\
     get_background_color img = Some (to_RGBA bg0) /\
     find_bounds (not_background (to_RGBA bg0) tolerance) img = Some box /\
     remove_border input tolerance = Some (box, out) /\
     out = crop_to_box img box /\
     (forall x y p, getpixel out x y = Some p ->
        exists pr pg pb pa, p = RGBA pr pg pb pa)) /\
  (forall input',
      mode (ensure_mode ModeRGBA input') = ModeRGBA /\
      remove_border input' tolerance
      = remove_border (ensure_mode ModeRGBA input') tolerance) /\
  is_background (RGBA bg_r bg_g bg_b bg_a) tolerance (RGBA r g b a)
  = Some ((a <? 10)%Z
          || (Z.abs (r - bg_r) <=? tolerance)%Z
             && (Z.abs (g - bg_g) <=? tolerance)%Z
             && (Z.abs (b - bg_b) <=? tolerance)%Z) /\
  (forall bg_a',
      is_background (RGBA bg_r bg_g bg_b bg_a') tolerance (RGBA r g b a)
      = is_background (RGBA bg_r bg_g bg_b bg_a) tolerance (RGBA r g b a)) /\
  ((10 <= a)%Z ->
   (Z.abs (r - bg_r) <= tolerance)%Z ->
   (Z.abs (g - bg_g) <= tolerance)%Z ->
   (Z.abs (b - bg_b) <= tolerance)%Z ->
   is_background (RGBA bg_r bg_g bg_b bg_a) tolerance (RGBA r g b a)
   = Some true).
Proof.
  intros Hwf Hw Hh.
  split; [|split; [|split; [|split]]].
  - cbn zeta.
    destruct (ensure_mode_wf ModeRGBA input Hwf) as (Hwf' & Hm' & Hw' & Hh').
    split; [intros x y; now apply (getpixel_ensure_mode ModeRGBA)|].
    split.
    { intros x y p Hp. apply has_mode_RGBA_inv. rewrite <- Hm'.
      eapply getpixel_has_mode; eassumption. }
    destruct (remove_border_pure input tolerance Hwf Hw Hh)
      as (bg & Hbg & _ & Hc & Hrun).
    destruct (getpixel_defined input 0 0 Hwf Hw Hh) as (bg0 & Hbg0 & _).
    assert (bg = to_RGBA bg0).
    { rewrite (getpixel_ensure_mode ModeRGBA), Hbg0 in Hbg by assumption.
      cbn in Hbg. congruence. }
    subst bg.
    destruct (get_background_color_corner _ Hwf') as (bg' & Hbg' & _ & Hget);
      [lia|lia|].
    assert (bg' = to_RGBA bg0) by congruence. subst bg'.
    destruct (bounds_crop_full (content_tol (to_RGBA bg0) tolerance) _ Hwf')
      as (Hwfo & _).
    exists bg0. eexists _, _.
    split; [assumption|]. split; [assumption|].
    split; [apply (find_bounds_pure _ _ _ Hwf' Hc)|].
    split; [exact Hrun|]. split; [reflexivity|].
    intros x y p Hp. apply has_mode_RGBA_inv.
    pose proof (getpixel_has_mode _ _ _ _ Hwfo Hp) as Hmp.
    change (has_mode (mode (ensure_mode ModeRGBA input)) p) in Hmp.
    now rewrite Hm' in Hmp.
  - intros input'. split; [apply ensure_mode_mode|].
    unfold remove_border. rewrite ensure_mode_idem. reflexivity.
  - unfold is_background, within. destruct (a <? 10)%Z; reflexivity.
  - reflexivity.
  - intros Ha Hr Hg Hb. unfold is_background, within.
    apply Z.ltb_ge in Ha. rewrite Ha.
    apply Z.leb_le in Hr, Hg, Hb. rewrite Hr, Hg, Hb. reflexivity.
Qed.

Lemma tolerance_classification_witness :
  getpixel framed4 1 1 = Some (RGB 10 20 30) /\
  getpixel (ensure_mode ModeRGBA framed4) 1 1 = Some (RGBA 10 20 30 255) /\
  (exists box out,
      remove_border framed4 30 = Some (box, out) /\
      forall x y p, getpixel out x y = Some p ->
        exists pr pg pb pa, p = RGBA pr pg pb pa) /\
  is_background (RGBA 255 255 255 0) 30 (RGBA 250 250 250 200) = Some true.
Proof.
  destruct (tolerance_classification framed4 30 255 255 255 0 250 250 250 200)
    as ((Hpx & _ & (bg0 & box & out & _ & _ & _ & Hrun & _ & Hout))
        & _ & _ & _ & Hwithin);
    [solve_wf | cbn; lia | cbn; lia |].
  split; [reflexivity|].
  split; [rewrite Hpx; reflexivity|].
  split; [exists box, out; split; assumption|].
  apply Hwithin; cbn; lia.
Defined.

(** ** Pixels of low alpha stay out of the bounds *)

Lemma foreground_alpha (bg_color : pixel) (tolerance : Z) (img : image)
    (x y : nat) :
  (forall x y p, getpixel img x y = Some p ->
     not_background bg_color tolerance p
     = Some (content_tol bg_color tolerance p)) ->
  foreground (not_background bg_color tolerance) img x y ->
  exists p, getpixel img x y = Some p /\ (10 <= alpha_of p)%Z /\
            colour_beyond bg_color tolerance p.
Proof.
  intros Hc (p & Hp & Hcontent). exists p. split; [assumption|].
  rewrite (Hc _ _ _ Hp) in Hcontent. injection Hcontent as Hcontent.
  unfold content_tol, colour_beyond, within in *.
  destruct (rgb_of bg_color) as ((bg_r & bg_g) & bg_b).
  destruct (rgb_of p) as ((r & g) & b).
  destruct (Z.ltb_spec (alpha_of p) 10); [discriminate|].
  split; [assumption|]. cbn in Hcontent.
  destruct (Z.leb_spec (Z.abs (r - bg_r)) tolerance); [|now left].
  destruct (Z.leb_spec (Z.abs (g - bg_g)) tolerance); [|now right; left].
  destruct (Z.leb_spec (Z.abs (b - bg_b)) tolerance); [|now right; right].
  discriminate.
Qed.

(** C4. In tolerance mode a pixel whose alpha is below the cutoff of 10 is
    background whatever its colour, the reference and the tolerance, and it
    is left out of the bounding box: it is never content, so, when the
    image holds content, the bounds lie inside every box that holds the
    pixels of alpha at least 10 with a colour beyond the tolerance, and a
    pixel of alpha below 10 outside such a box is outside the bounds, even
    when its own colour is beyond the tolerance. *)
Theorem transparent_pixel_left_out (input : image) (tolerance : Z) :
  wf input -> 0 < width input -> 0 < height input ->
  (forall bg_r bg_g bg_b bg_a r g b a, (a < 10)%Z ->
     is_background (RGBA bg_r bg_g bg_b bg_a) tolerance (RGBA r g b a)
     = Some true) /\
  exists bg box out,
    let img := ensure_mode ModeRGBA input in
    let fg := foreground (not_background bg tolerance) img in
    getpixel img 0 0 = Some bg /\
    remove_border input tolerance = Some (box, out) /\
    (forall x y p, getpixel img x y = Some p -> (alpha_of p < 10)%Z ->
       ~ fg x y) /\
    ((exists x y, fg x y) ->
     forall box',
       (forall x y p, getpixel img x y = Some p -> (10 <= alpha_of p)%Z ->
          colour_beyond bg tolerance p -> inside box' x y) ->
       box_inside box box' /\
       forall x0 y0 p0, getpixel img x0 y0 = Some p0 ->
         (alpha_of p0 < 10)%Z -> colour_beyond bg tolerance p0 ->
         ~ inside box' x0 y0 -> ~ inside box x0 y0).
Proof.
  intros Hwf Hw Hh. split.
  - intros bg_r bg_g bg_b bg_a r g b a Ha. unfold is_background.
    apply Z.ltb_lt in Ha. rewrite Ha. reflexivity.
  - destruct (remove_border_pure input tolerance Hwf Hw Hh)
      as (bg & Hbg & _ & Hc & Hrun).
    destruct (ensure_mode_wf ModeRGBA input Hwf) as (Hwf' & _).
    pose proof (bounds_minimal_crop _ _ _ Hwf' Hc) as (_ & _ & _ & Hmin & _).
    exists bg. eexists _, _. cbn zeta.
    split; [assumption|]. split; [exact Hrun|]. split.
    + intros x y p Hp Ha Hfg.
      destruct (foreground_alpha _ _ _ _ _ Hc Hfg) as (q & Hq & Hge & _).
      assert (q = p) by congruence. subst q. lia.
    + intros Hsome box' Hhull.
      assert (Hin : box_inside
                      (bounds (content_tol bg tolerance)
                         (ensure_mode ModeRGBA input)) box').
      { apply Hmin; [assumption|]. intros x y Hfg.
        destruct (foreground_alpha _ _ _ _ _ Hc Hfg) as (q & Hq & Hge & Hfar).
        eapply Hhull; eassumption. }
      split; [exact Hin|].
      intros x0 y0 p0 _ _ _ Hout Hinside. apply Hout.
      unfold box_inside, inside in *. lia.
Qed.

Lemma transparent_pixel_left_out_witness :
  exists out,
    remove_border clear_between3 30 = Some (mkBox 0 0 2 2, out) /\
    getpixel clear_between3 0 0 = Some white /\
    getpixel clear_between3 1 0 = Some (RGBA 0 255 0 0) /\
    colour_beyond white 30 (RGBA 0 255 0 0) /\
    ~ inside (mkBox 0 0 2 2) 1 0.
Proof.
  destruct (transparent_pixel_left_out clear_between3 30)
    as (_ & (bg & box & out & Hbg & Hrun & _ & Hhull));
    [solve_wf | cbn; lia | cbn; lia |].
  vm_compute in Hrun. injection Hrun as <- <-.
  vm_compute in Hbg. injection Hbg as <-.
  assert (Hfar : colour_beyond white 30 (RGBA 0 255 0 0))
    by (unfold colour_beyond; cbn; lia).
  eexists. split; [reflexivity|]. split; [reflexivity|].
  split; [reflexivity|]. split; [exact Hfar|].
  destruct (Hhull ltac:(exists 2, 0; eexists; split; reflexivity)
              (mkBox 0 0 2 2)) as (_ & Hout).
  - intros x y p Hp Ha Hbeyond.
    assert (Hr : x < 3 /\ y < 1)
      by (apply (getpixel_range clear_between3 x y p); [solve_wf|exact Hp]).
    destruct Hr as (Hx & Hy).
    destruct y as [|y]; [|lia].
    destruct x as [|[|[|x]]]; [| | |lia];
      cbn in Hp; injection Hp as <-; cbn in Ha;
      unfold colour_beyond in Hbeyond; cbn in Hbeyond;
      unfold inside; cbn; lia.
  - apply (Hout 1 0 (RGBA 0 255 0 0)); [reflexivity|cbn; lia|exact Hfar|].
    unfold inside. cbn. lia.
Defined.
